(** * Deferred delivery of postponed messages

    A shallow embedding of the scheduler package (the job registry, the
    fire-time task, the recovery loader and the cascade cancellers), of the
    message conversions, and of the request handlers of api/message.go that
    call into the scheduler.

    Go's [uint] identifiers are natural numbers ([N]); no arithmetic is done
    on them.  A [time.Time] is an instant on a discrete clock ([Z]).  The
    package-level [jobs] map is a [gmap], the tables of the store are lists
    in primary-key order. *)

From Stdlib Require Import ZArith NArith List Lia.
From stdpp Require Import base option list gmap strings relations.

Open Scope Z_scope.

(** ** Basic types *)

Definition uint := N.
Definition Time := Z.
Definition UUID := N.

(** The errors the code tests against [nil]. *)
Inductive Error : Set :=
| ErrRecordNotFound                 (* gorm: First found no row *)
| ErrStore (code : N)               (* any other failure of a store call *)
| ErrNewJob.                        (* the timer engine refused a job *)

(** A decoded JSON value, the content of Go's [interface{}] in [Extras]. *)
#[local] Unset Elimination Schemes.
Inductive JSON : Type :=
| JNull
| JBool (b : bool)
| JNumber (z : Z)
| JString (s : string)
| JArray (l : list JSON)
| JObject (l : list (string * JSON)).
#[local] Set Elimination Schemes.

(** What a call that may fail hands back. *)
Inductive Result (A : Type) : Type :=
| Ok (a : A)
| Err (e : Error).
Arguments Ok {A} a.
Arguments Err {A} e.

(** ** package model *)

Module Message.
Record t : Type := mk {
  ID : uint;
  ApplicationID : uint;
  Message : string;
  Title : string;
  Priority : Z;
  Extras : list Byte.byte;
  Date : Time;
  PostponedAt : option Time
}.
End Message.

Module MessageExternal.
Record t : Type := mk {
  ID : uint;
  ApplicationID : uint;
  Message : string;
  Title : string;
  Priority : option Z;                          (* *int *)
  Extras : option (list (string * JSON));       (* a nil or allocated map *)
  Date : Time;
  PostponedAt : option Time                     (* *time.Time *)
}.
End MessageExternal.

Module Application.
Record t : Type := mk {
  ID : uint;
  Token : string;
  UserID : uint;
  Name : string;
  DefaultPriority : Z
}.
End Application.

(** ** The message conversions *)

Section Conversions.

(** encoding/json is not part of the repository: the two codec functions
    are parameters.  Both call sites drop the error result, so only the
    produced value matters.  [json_Unmarshal b] is the map that
    json.Unmarshal(b, &res.Extras) leaves in [res.Extras], which holds a
    freshly made empty map before the call: [None] when the call sets it to
    nil, as it does for the JSON value null. *)
Variable json_Marshal : list (string * JSON) → list Byte.byte.
Variable json_Unmarshal : list Byte.byte → option (list (string * JSON)).

(* api/message.go, toInternalMessage *)
Definition toInternalMessage (msg : MessageExternal.t) : Message.t :=
  {| Message.ID := MessageExternal.ID msg;
     Message.ApplicationID := MessageExternal.ApplicationID msg;
     Message.Message := MessageExternal.Message msg;
     Message.Title := MessageExternal.Title msg;
     Message.Date := MessageExternal.Date msg;
     Message.PostponedAt := MessageExternal.PostponedAt msg;
     Message.Priority :=
       match MessageExternal.Priority msg with
       | Some p => p
       | None => 0
       end;
     Message.Extras :=
       match MessageExternal.Extras msg with
       | Some extras => json_Marshal extras
       | None => []
       end |}.

(* scheduler package, ToExternalMessage *)
Definition ToExternalMessage (msg : Message.t) : MessageExternal.t :=
  {| MessageExternal.ID := Message.ID msg;
     MessageExternal.ApplicationID := Message.ApplicationID msg;
     MessageExternal.Message := Message.Message msg;
     MessageExternal.Title := Message.Title msg;
     MessageExternal.Priority := Some (Message.Priority msg);
     MessageExternal.Date := Message.Date msg;
     MessageExternal.PostponedAt := Message.PostponedAt msg;
     MessageExternal.Extras :=
       if decide (length (Message.Extras msg) ≠ 0%nat)
       then json_Unmarshal (Message.Extras msg)
       else None |}.

(* api/message.go, toExternalMessages *)
Definition toExternalMessages (msg : list Message.t) : list MessageExternal.t :=
  ToExternalMessage <$> msg.

End Conversions.

(** ** The timer engine (gocron)

    gocron is a third-party module: only its calls appear in the repository.
    The model follows those calls: the engine keeps the one-shot jobs that
    have not run yet, [NewJob] adds one or fails, [RemoveJob] cancels by job
    identifier.  Whether [NewJob] takes a start instant is the engine's
    decision, a parameter [admits now start] of the model; job identifiers
    are fresh (the engine draws random UUIDs, taken here from a counter). *)

Module gocron.

Record Job : Type := mkJob {
  ID : UUID;
  StartDateTime : Time;      (* OneTimeJobStartDateTime(postponedAt) *)
  Task : uint                (* the msgId captured by the task closure *)
}.

#[global] Instance Job_eq_dec : EqDecision Job.
Proof. solve_decision. Defined.

Record Scheduler : Type := mkScheduler {
  pending : list Job;
  next_id : UUID
}.

Definition NewScheduler : Scheduler := {| pending := []; next_id := 0%N |}.

Definition NewJob (admits : Time → Time → bool) (now start : Time)
    (msgId : uint) (s : Scheduler) : Result (Job * Scheduler) :=
  if admits now start
  then let job := {| ID := next_id s; StartDateTime := start; Task := msgId |} in
       Ok (job, {| pending := pending s ++ [job]; next_id := N.succ (next_id s) |})
  else Err ErrNewJob.

(* the error result (job not found) is dropped by the only caller *)
Definition RemoveJob (id : UUID) (s : Scheduler) : Scheduler :=
  {| pending := filter (λ j, ID j ≠ id) (pending s); next_id := next_id s |}.

(** The jobs of a message that have not run yet. *)
Definition jobsOf (msgId : uint) (s : Scheduler) : list Job :=
  filter (λ j, Task j = msgId) (pending s).

End gocron.

(** gocron's one-time job takes a start instant only when it lies in the
    future of the engine's clock (its ErrOneTimeJobStartDateTimePast).  The
    engine reads its clock after the caller has read time.Now(), so an
    instant equal to the caller's now has passed for the engine. *)
Definition future_only (now start : Time) : bool := now <? start.

(** An engine that takes every start instant. *)
Definition any_instant (now start : Time) : bool := true.

(** ** The process state *)

(** What the scheduler prints on standard output. *)
Inductive Line : Type :=
| ErrorGettingMessage (msgId : uint) (err : Error)
| ErrorSchedulingMessage (msgId : uint) (err : Error).

Record World : Type := mkWorld {
  clock : Time;                                 (* time.Now() *)
  messages : list Message.t;                    (* table messages *)
  applications : list Application.t;            (* table applications *)
  faults : list (option Error);                 (* results of the store calls to come *)
  cron : gocron.Scheduler;                      (* Scheduler.scheduler *)
  jobs : gmap uint UUID;                        (* var jobs: message id -> job id *)
  delivered : list (uint * MessageExternal.t);  (* the calls of Notify, in order *)
  stdout : list Line
}.

Definition set_clock (t : Time) (w : World) : World :=
  mkWorld t (messages w) (applications w) (faults w) (cron w) (jobs w)
          (delivered w) (stdout w).
Definition set_messages (l : list Message.t) (w : World) : World :=
  mkWorld (clock w) l (applications w) (faults w) (cron w) (jobs w)
          (delivered w) (stdout w).
Definition set_faults (l : list (option Error)) (w : World) : World :=
  mkWorld (clock w) (messages w) (applications w) l (cron w) (jobs w)
          (delivered w) (stdout w).
Definition set_applications (l : list Application.t) (w : World) : World :=
  mkWorld (clock w) (messages w) l (faults w) (cron w) (jobs w)
          (delivered w) (stdout w).
Definition set_cron (s : gocron.Scheduler) (w : World) : World :=
  mkWorld (clock w) (messages w) (applications w) (faults w) s (jobs w)
          (delivered w) (stdout w).
Definition set_jobs (j : gmap uint UUID) (w : World) : World :=
  mkWorld (clock w) (messages w) (applications w) (faults w) (cron w) j
          (delivered w) (stdout w).

(* fmt.Println *)
Definition Println (l : Line) (w : World) : World :=
  mkWorld (clock w) (messages w) (applications w) (faults w) (cron w) (jobs w)
          (delivered w) (stdout w ++ [l]).

(* stream.API.Notify: the dispatch sink records the call *)
Definition Notify (userID : uint) (msg : MessageExternal.t) (w : World) : World :=
  mkWorld (clock w) (messages w) (applications w) (faults w) (cron w) (jobs w)
          (delivered w ++ [(userID, msg)]) (stdout w).

(** How a call of a function without results ends. *)
Inductive Outcome : Type :=
| Returned (w : World)
| Panicked (e : Error) (w : World).

Definition after (o : Outcome) : World :=
  match o with
  | Returned w => w
  | Panicked _ w => w
  end.

(** ** The store

    Every call to the store first learns whether it fails: the head of
    [faults] is its error, an exhausted list means the store is healthy. *)

Definition store_call (w : World) : option Error * World :=
  match faults w with
  | [] => (None, w)
  | e :: rest => (e, set_faults rest w)
  end.

(* Where("id = ?", msgId).First(&message) *)
Definition First_by_id (msgId : uint) (w : World) : Result Message.t * World :=
  let (e, w1) := store_call w in
  match e with
  | Some err => (Err err, w1)
  | None =>
      match filter (λ m, Message.ID m = msgId) (messages w1) with
      | m :: _ => (Ok m, w1)
      | [] => (Err ErrRecordNotFound, w1)
      end
  end.

(** SQL's [postponed_at >= now]; a NULL column never compares true. *)
Definition postponed_from (now : Time) (m : Message.t) : Prop :=
  match Message.PostponedAt m with
  | Some t => now ≤ t
  | None => False
  end.

#[global] Instance postponed_from_dec now m : Decision (postponed_from now m).
Proof. unfold postponed_from. destruct (Message.PostponedAt m); apply _. Defined.

(* Where("postponed_at >= ?", time.Now()).Find(&messages); the error is
   not looked at and a failed query leaves the slice empty *)
Definition Find_postponed (w : World) : list Message.t * World :=
  let now := clock w in
  let (e, w1) := store_call w in
  match e with
  | Some _ => ([], w1)
  | None => (filter (postponed_from now) (messages w1), w1)
  end.

(* Where("application_id = ?", appID).Find(&messages) *)
Definition Find_by_application (appID : uint) (w : World) : list Message.t * World :=
  let (e, w1) := store_call w in
  match e with
  | Some _ => ([], w1)
  | None => (filter (λ m, Message.ApplicationID m = appID) (messages w1), w1)
  end.

(** Modelled from the spec: the database package is not among the sources.
    The directory call [applicationsOwnedBy(userID)]: the applications whose
    owner is [userID], or an error and no application. *)
Definition GetApplicationsByUser (userID : uint) (w : World)
    : list Application.t * option Error * World :=
  let (e, w1) := store_call w in
  match e with
  | Some err => ([], Some err, w1)
  | None => (filter (λ a, Application.UserID a = userID) (applications w1), None, w1)
  end.

(** ** package scheduler *)

Section Scheduler.

Variable admits : Time → Time → bool.
Variable json_Unmarshal : list Byte.byte → option (list (string * JSON)).

(* func (s Scheduler) DeleteMessageSchedule(message *model.Message) *)
Definition DeleteMessageSchedule (message : Message.t) (w : World) : World :=
  match jobs w !! Message.ID message with
  | None => w
  | Some jobId =>
      let w1 := set_cron (gocron.RemoveJob jobId (cron w)) w in
      set_jobs (delete (Message.ID message) (jobs w1)) w1
  end.

(* the func() handed to gocron.NewTask by ScheduleMessage *)
Definition task (msgId : uint) (w : World) : Outcome :=
  match First_by_id msgId w with
  | (Err err, w1) =>
      Panicked err (Println (ErrorGettingMessage msgId err) w1)
  | (Ok message, w1) =>
      let userId := Message.ApplicationID message in
      (* remove from the job list only, i want to keep track of the
         postponed date and time *)
      let w2 := DeleteMessageSchedule message w1 in
      Returned (Notify userId (ToExternalMessage json_Unmarshal message) w2)
  end.

(* func (s Scheduler) ScheduleMessage(msgId uint, postponedAt time.Time) *)
Definition ScheduleMessage (msgId : uint) (postponedAt : Time) (w : World) : World :=
  match gocron.NewJob admits (clock w) postponedAt msgId (cron w) with
  | Err err => Println (ErrorSchedulingMessage msgId err) w
  | Ok (job, s') => set_jobs (<[msgId := gocron.ID job]> (jobs w)) (set_cron s' w)
  end.

(* func (s Scheduler) scheduleAll(); the query only returns rows whose
   postponed_at is set, so the dereference never meets nil *)
Definition scheduleAll (w : World) : World :=
  let (found, w1) := Find_postponed w in
  foldl (λ w' message,
           match Message.PostponedAt message with
           | Some postponedAt => ScheduleMessage (Message.ID message) postponedAt w'
           | None => w'
           end) w1 found.

(* func (s Scheduler) DeleteMessagesScheduleByApplication(appID uint) *)
Definition DeleteMessagesScheduleByApplication (appID : uint) (w : World) : World :=
  let (found, w1) := Find_by_application appID w in
  foldl (λ w' message, DeleteMessageSchedule message w') w1 found.

(* func (s Scheduler) DeleteMessagesScheduleByUser(userID uint) *)
Definition DeleteMessagesScheduleByUser (userID : uint) (w : World) : World :=
  let '(app, _, w1) := GetApplicationsByUser userID w in
  foldl (λ w' a, DeleteMessagesScheduleByApplication (Application.ID a) w') w1 app.

(* func Init(...): a new engine, the empty package-level [jobs], then
   scheduleAll *)
Definition Init (now : Time) (msgs : list Message.t) (apps : list Application.t)
    (fs : list (option Error)) : World :=
  scheduleAll
    {| clock := now; messages := msgs; applications := apps; faults := fs;
       cron := gocron.NewScheduler; jobs := ∅; delivered := []; stdout := [] |}.

(** *** The engine at work *)

(** The job that runs leaves the pending ones; every other job stays. *)
Definition left_pending (job : gocron.Job) (w : World) : World :=
  set_cron (gocron.RemoveJob (gocron.ID job) (cron w)) w.

(** The engine runs a pending job once its start instant is reached: the job
    leaves the pending ones and its task is called.  [None]: the job is not
    pending or not due, nothing runs. *)
Definition fire (job : gocron.Job) (w : World) : option Outcome :=
  if decide (job ∈ gocron.pending (cron w) ∧ gocron.StartDateTime job ≤ clock w)
  then Some (task (gocron.Task job) (left_pending job w))
  else None.

(** Time passes. *)
Definition tick (d : Z) (w : World) : World := set_clock (clock w + Z.max 0 d) w.

End Scheduler.

(** ** package api: the handlers of api/message.go that use the scheduler *)

(** What a handler reads from its gin context: the authenticated user and
    token (package auth), the [id] path parameter as withID parses it and
    the bound request body. *)
Record Context : Type := mkContext {
  auth_UserID : uint;
  auth_TokenID : string;
  param_id : option uint;
  bound : option MessageExternal.t
}.

(** What the handler leaves in the context. *)
Inductive Response : Type :=
| Untouched                                  (* nothing written: status 200 *)
| WroteJSON (code : N) (body : MessageExternal.t)
| Aborted (code : N)
| NilDereference.

(** Modelled from the spec: the store behind the MessageDatabase interface
    (package database) is not among the sources.  Point lookups by
    identifier hand back the row or nil, writes change the named rows, and
    a newly created message takes an identifier above every one present. *)
Definition GetMessageByID (id : uint) (w : World) : Result (option Message.t) * World :=
  let (e, w1) := store_call w in
  match e with
  | Some err => (Err err, w1)
  | None => (Ok (head (filter (λ m, Message.ID m = id) (messages w1))), w1)
  end.

Definition GetApplicationByID (id : uint) (w : World)
    : Result (option Application.t) * World :=
  let (e, w1) := store_call w in
  match e with
  | Some err => (Err err, w1)
  | None => (Ok (head (filter (λ a, Application.ID a = id) (applications w1))), w1)
  end.

Definition GetApplicationByToken (token : string) (w : World)
    : Result (option Application.t) * World :=
  let (e, w1) := store_call w in
  match e with
  | Some err => (Err err, w1)
  | None => (Ok (head (filter (λ a, Application.Token a = token) (applications w1))), w1)
  end.

Definition with_ID (id : uint) (m : Message.t) : Message.t :=
  Message.mk id (Message.ApplicationID m) (Message.Message m) (Message.Title m)
             (Message.Priority m) (Message.Extras m) (Message.Date m)
             (Message.PostponedAt m).

Definition with_PostponedAt (p : option Time) (m : Message.t) : Message.t :=
  Message.mk (Message.ID m) (Message.ApplicationID m) (Message.Message m)
             (Message.Title m) (Message.Priority m) (Message.Extras m)
             (Message.Date m) p.

Definition next_message_ID (l : list Message.t) : uint :=
  N.succ (foldr (λ m acc, N.max (Message.ID m) acc) 0%N l).

(* DB.CreateMessage(message): the row is stored and message.ID is set *)
Definition DB_CreateMessage (message : Message.t) (w : World)
    : Result Message.t * World :=
  let (e, w1) := store_call w in
  match e with
  | Some err => (Err err, w1)
  | None =>
      let stored := with_ID (next_message_ID (messages w1)) message in
      (Ok stored, set_messages (messages w1 ++ [stored]) w1)
  end.

Definition UpdateMessagePostponement (id : uint) (postponedAt : option Time)
    (w : World) : option Error * World :=
  let (e, w1) := store_call w in
  match e with
  | Some err => (Some err, w1)
  | None =>
      (None, set_messages
               ((λ m, if decide (Message.ID m = id)
                      then with_PostponedAt postponedAt m else m) <$> messages w1) w1)
  end.

Definition DeleteMessageByID (id : uint) (w : World) : option Error * World :=
  let (e, w1) := store_call w in
  match e with
  | Some err => (Some err, w1)
  | None => (None, set_messages (filter (λ m, Message.ID m ≠ id) (messages w1)) w1)
  end.

Definition DeleteMessagesByApplication (applicationID : uint) (w : World)
    : option Error * World :=
  let (e, w1) := store_call w in
  match e with
  | Some err => (Some err, w1)
  | None =>
      (None, set_messages
               (filter (λ m, Message.ApplicationID m ≠ applicationID) (messages w1)) w1)
  end.

Definition owned_by (userID : uint) (apps : list Application.t) (m : Message.t) : Prop :=
  Exists (λ a, Application.ID a = Message.ApplicationID m ∧ Application.UserID a = userID)
         apps.

Definition DeleteMessagesByUser (userID : uint) (w : World) : option Error * World :=
  let (e, w1) := store_call w in
  match e with
  | Some err => (Some err, w1)
  | None =>
      (None, set_messages
               (filter (λ m, ¬ owned_by userID (applications w1) m) (messages w1)) w1)
  end.

(* successOrAbort(ctx, 500, err) *)
Definition successOrAbort (err : option Error) : Response :=
  match err with
  | Some _ => Aborted 500
  | None => Untouched
  end.

(** [strings.TrimSpace(s) == ""]: the string consists of white space only.
    TrimSpace cuts the runes for which unicode.IsSpace holds from both ends
    of the UTF-8 text; these are, by their encoding,
    U+0009..U+000D and U+0020 (one byte), U+0085 and U+00A0 (C2 85, C2 A0),
    U+1680 (E1 9A 80), U+2000..U+200A, U+2028, U+2029, U+202F (E2 80 ..),
    U+205F (E2 81 9F) and U+3000 (E3 80 80). *)
Definition isSpace (a : N) : bool :=
  orb (N.eqb a 32) (andb (N.leb 9 a) (N.leb a 13)).

Definition isSpace2 (a b : N) : bool :=
  andb (N.eqb a 194) (orb (N.eqb b 133) (N.eqb b 160)).

Definition isSpace3 (a b c : N) : bool :=
  orb (andb (N.eqb a 225) (andb (N.eqb b 154) (N.eqb c 128)))
 (orb (andb (N.eqb a 226)
         (orb (andb (N.eqb b 128)
                 (orb (andb (N.leb 128 c) (N.leb c 138))
                 (orb (N.eqb c 168) (orb (N.eqb c 169) (N.eqb c 175)))))
              (andb (N.eqb b 129) (N.eqb c 159))))
      (andb (N.eqb a 227) (andb (N.eqb b 128) (N.eqb c 128)))).

Fixpoint blank_bytes (l : list N) : bool :=
  match l with
  | [] => true
  | a :: r =>
      if isSpace a then blank_bytes r
      else
        match r with
        | [] => false
        | b :: r2 =>
            if isSpace2 a b then blank_bytes r2
            else
              match r2 with
              | [] => false
              | c :: r3 => if isSpace3 a b c then blank_bytes r3 else false
              end
        end
  end.

Fixpoint bytes_of (s : string) : list N :=
  match s with
  | EmptyString => []
  | String a rest => Ascii.N_of_ascii a :: bytes_of rest
  end.

Definition blank (s : string) : bool := blank_bytes (bytes_of s).

Definition with_defaults (application : Application.t) (now : Time)
    (message : MessageExternal.t) : MessageExternal.t :=
  {| MessageExternal.ID := 0%N;
     MessageExternal.ApplicationID := Application.ID application;
     MessageExternal.Message := MessageExternal.Message message;
     MessageExternal.Title :=
       if blank (MessageExternal.Title message)
       then Application.Name application
       else MessageExternal.Title message;
     MessageExternal.Priority :=
       match MessageExternal.Priority message with
       | None => Some (Application.DefaultPriority application)
       | p => p
       end;
     MessageExternal.Extras := MessageExternal.Extras message;
     MessageExternal.Date := now;
     MessageExternal.PostponedAt := MessageExternal.PostponedAt message |}.

Section Handlers.

Variable admits : Time → Time → bool.
Variable json_Marshal : list (string * JSON) → list Byte.byte.
Variable json_Unmarshal : list Byte.byte → option (list (string * JSON)).

#[local] Abbreviation ToExternal := (ToExternalMessage json_Unmarshal).

(* func (a *MessageAPI) CreateMessage(ctx *gin.Context) *)
Definition CreateMessage (ctx : Context) (w : World) : Response * World :=
  match bound ctx with
  | None => (Aborted 400, w)                       (* ctx.Bind failed *)
  | Some message =>
      match GetApplicationByToken (auth_TokenID ctx) w with
      | (Err _, w1) => (Aborted 500, w1)
      | (Ok None, w1) => (NilDereference, w1)      (* application.ID on nil *)
      | (Ok (Some application), w1) =>
          let message := with_defaults application (clock w1) message in
          match DB_CreateMessage (toInternalMessage json_Marshal message) w1 with
          | (Err _, w2) => (Aborted 500, w2)
          | (Ok msgInternal, w2) =>
              let w3 :=
                match MessageExternal.PostponedAt message with
                | Some postponedAt =>
                    ScheduleMessage admits (Message.ID msgInternal) postponedAt w2
                | None =>
                    Notify (auth_UserID ctx) (ToExternal msgInternal) w2
                end in
              (WroteJSON 200 (ToExternal msgInternal), w3)
          end
      end
  end.

(* func (a *MessageAPI) postponeMessage(ctx *gin.Context, postponedAt *time.Time) *)
Definition postponeMessage (ctx : Context) (postponedAt : option Time) (w : World)
    : Response * World :=
  match param_id ctx with
  | None => (Aborted 400, w)                       (* withID *)
  | Some id =>
      match GetMessageByID id w with
      | (Err _, w1) => (Aborted 500, w1)
      | (Ok None, w1) => (Aborted 404, w1)
      | (Ok (Some msg), w1) =>
          match GetApplicationByID (Message.ApplicationID msg) w1 with
          | (Err _, w2) => (Aborted 500, w2)
          | (Ok app, w2) =>
              if decide (Application.UserID <$> app = Some (auth_UserID ctx)) then
                let w3 := DeleteMessageSchedule msg w2 in
                let w4 :=
                  match postponedAt with
                  | Some at_ => ScheduleMessage admits (Message.ID msg) at_ w3
                  | None => w3
                  end in
                let (err, w5) := UpdateMessagePostponement id postponedAt w4 in
                (successOrAbort err, w5)
              else (Aborted 404, w2)
          end
      end
  end.

(* func (a *MessageAPI) PostponeMessage(ctx *gin.Context); [at_] is the
   "at" query parameter after time.Parse, [None] when it is missing or
   not RFC3339 *)
Definition PostponeMessage (ctx : Context) (at_ : option Time) (w : World)
    : Response * World :=
  match at_ with
  | None => (Aborted 400, w)
  | Some postponedAt =>
      if decide (postponedAt < clock w)            (* postponedAt.Before(timeNow()) *)
      then (Aborted 400, w)
      else postponeMessage ctx (Some postponedAt) w
  end.

(* func (a *MessageAPI) DeleteMessagePostponement(ctx *gin.Context) *)
Definition DeleteMessagePostponement (ctx : Context) (w : World) : Response * World :=
  postponeMessage ctx None w.

(* func (a *MessageAPI) DeleteMessage(ctx *gin.Context) *)
Definition DeleteMessage (ctx : Context) (w : World) : Response * World :=
  match param_id ctx with
  | None => (Aborted 400, w)
  | Some id =>
      match GetMessageByID id w with
      | (Err _, w1) => (Aborted 500, w1)
      | (Ok None, w1) => (Aborted 404, w1)
      | (Ok (Some msg), w1) =>
          match GetApplicationByID (Message.ApplicationID msg) w1 with
          | (Err _, w2) => (Aborted 500, w2)
          | (Ok app, w2) =>
              if decide (Application.UserID <$> app = Some (auth_UserID ctx)) then
                let w3 := DeleteMessageSchedule msg w2 in
                let (err, w4) := DeleteMessageByID id w3 in
                (successOrAbort err, w4)
              else (Aborted 404, w2)
          end
      end
  end.

(* func (a *MessageAPI) DeleteMessages(ctx *gin.Context) *)
Definition DeleteMessages (ctx : Context) (w : World) : Response * World :=
  let userID := auth_UserID ctx in
  let w1 := DeleteMessagesScheduleByUser userID w in
  let (err, w2) := DeleteMessagesByUser userID w1 in
  (successOrAbort err, w2).

(* func (a *MessageAPI) DeleteMessageWithApplication(ctx *gin.Context) *)
Definition DeleteMessageWithApplication (ctx : Context) (w : World)
    : Response * World :=
  match param_id ctx with
  | None => (Aborted 400, w)
  | Some id =>
      match GetApplicationByID id w with
      | (Err _, w1) => (Aborted 500, w1)
      | (Ok application, w1) =>
          if decide (Application.UserID <$> application = Some (auth_UserID ctx)) then
            let w2 := DeleteMessagesScheduleByApplication id w1 in
            let (err, w3) := DeleteMessagesByApplication id w2 in
            (successOrAbort err, w3)
          else (Aborted 404, w1)
      end
  end.

End Handlers.

(** ** Runs of the scheduler *)

Section Runs.

Variable admits : Time → Time → bool.
Variable json_Unmarshal : list Byte.byte → option (list (string * JSON)).

(** What can happen to the process between two observations.  A bare
    [ScheduleMessage] is only listed for an identifier without a registry
    entry; with an entry the callers cancel first, as postponeMessage does.
    The store may be rewritten at will by the request handlers. *)
Inductive step : World → World → Prop :=
| step_schedule msgId postponedAt w :
    jobs w !! msgId = None →
    step w (ScheduleMessage admits msgId postponedAt w)
| step_reschedule msg postponedAt w :
    step w (ScheduleMessage admits (Message.ID msg) postponedAt
              (DeleteMessageSchedule msg w))
| step_cancel msg w :
    step w (DeleteMessageSchedule msg w)
| step_cancel_application appID w :
    step w (DeleteMessagesScheduleByApplication appID w)
| step_cancel_user userID w :
    step w (DeleteMessagesScheduleByUser userID w)
| step_fire job w o :
    fire json_Unmarshal job w = Some o →
    step w (after o)
| step_tick d w :
    step w (tick d w)
| step_store msgs apps fs w :
    step w (set_messages msgs (set_applications apps (set_faults fs w))).

End Runs.

(** The engine and the registry agree: job identifiers are distinct and
    below the engine's counter, and every pending job is the one the
    registry names for its message. *)
Definition coherent (w : World) : Prop :=
  NoDup (gocron.ID <$> gocron.pending (cron w)) ∧
  (∀ j, j ∈ gocron.pending (cron w) → (gocron.ID j < gocron.next_id (cron w))%N) ∧
  (∀ j, j ∈ gocron.pending (cron w) → jobs w !! gocron.Task j = Some (gocron.ID j)).

(** At most one pending timer per message, known to the registry. *)
Definition one_timer_each (w : World) : Prop :=
  ∀ msgId,
    (length (gocron.jobsOf msgId (cron w)) ≤ 1)%nat ∧
    (∀ j, j ∈ gocron.jobsOf msgId (cron w) → jobs w !! msgId = Some (gocron.ID j)).

(** The state of a process that has just created its engine. *)
Definition startup (w : World) : Prop :=
  jobs w = ∅ ∧ gocron.pending (cron w) = [].

(** ** Sample data *)

Definition no_extras_out (_ : list (string * JSON)) : list Byte.byte := [].
Definition no_extras_in (_ : list Byte.byte) : option (list (string * JSON)) := Some [].

(* application 7 belongs to user 3 *)
Definition backup_app : Application.t :=
  Application.mk 7%N "Abackup" 3%N "backup" 2.

(* message 1 of application 7, postponed to instant 20 *)
Definition nightly : Message.t :=
  Message.mk 1%N 7%N "backup done" "nightly" 5 [] 8 (Some 20).

Definition nightly_ext : MessageExternal.t :=
  MessageExternal.mk 1%N 7%N "backup done" "nightly" (Some 5) None 8 (Some 20).

(* the process at instant 10, nothing scheduled yet *)
Definition morning : World :=
  {| clock := 10; messages := [nightly]; applications := [backup_app];
     faults := []; cron := gocron.NewScheduler; jobs := ∅;
     delivered := []; stdout := [] |}.

(* the job ScheduleMessage(1, 20) creates in [morning] *)
Definition nightly_job : gocron.Job := gocron.mkJob 0%N 20 1%N.

(* message 1 scheduled for instant 20 *)
Definition scheduled : World := ScheduleMessage future_only 1%N 20 morning.

(* ten instants later the job is due *)
Definition noon : World := tick 10 scheduled.

(* the same instant, after the row of message 1 was deleted *)
Definition noon_deleted : World := set_messages [] noon.

(* a request of user 3, made with the token of application 7 *)
Definition request (postponedAt : option Time) : Context :=
  {| auth_UserID := 3%N; auth_TokenID := "Abackup"; param_id := None;
     bound := Some (MessageExternal.mk 0%N 0%N "disk full" "alert" (Some 8) None 0
                      postponedAt) |}.

(* the message the request creates, as the handler answers it *)
Definition alert_ext (postponedAt : option Time) : MessageExternal.t :=
  MessageExternal.mk 2%N 7%N "disk full" "alert" (Some 8) None 10 postponedAt.

(* message 2, whose postponement to instant 5 has passed *)
Definition overdue : Message.t :=
  Message.mk 2%N 7%N "backup failed" "weekly" 5 [] 1 (Some 5).

(* the process as it starts again at instant 10 *)
Definition restart : World :=
  {| clock := 10; messages := [nightly; overdue]; applications := [backup_app];
     faults := []; cron := gocron.NewScheduler; jobs := ∅;
     delivered := []; stdout := [] |}.

(** ** package api: paging *)

Module pagingParams.
Record t : Type := mk {
  Limit : Z;                  (* int, bound to 1..200 by withPaging *)
  Since : uint;
  Postponed : option string
}.
End pagingParams.

Module Paging.
Record t : Type := mk {
  Size : Z;
  Limit : Z;
  Next : string;
  Since : uint
}.
End Paging.

Module PagedMessages.
Record t : Type := mk {
  Paging : Paging.t;
  Messages : list MessageExternal.t
}.
End PagedMessages.

Section PagingCode.

Variable json_Unmarshal : list Byte.byte → option (list (string * JSON)).

(** The address of the next page: location.Get(ctx) with the request path
    and the [limit] and [since] query parameters added.  The URL packages
    are not part of the repository. *)
Variable nextURL : Z → uint → string.

(* func buildWithPaging(ctx, paging, messages); [None] is a run-time panic:
   messages[:len(messages)-1] on an empty slice, or
   useMessages[len(useMessages)-1] on an empty useMessages *)
Definition buildWithPaging (paging : pagingParams.t) (messages : list Message.t)
    : option PagedMessages.t :=
  if decide (pagingParams.Limit paging < Z.of_nat (length messages)) then
    match messages with
    | [] => None
    | _ :: _ =>
        let useMessages := take (length messages - 1) messages in
        match last useMessages with
        | None => None
        | Some m =>
            let since := Message.ID m in
            Some {| PagedMessages.Paging :=
                      {| Paging.Size := Z.of_nat (length useMessages);
                         Paging.Limit := pagingParams.Limit paging;
                         Paging.Next := nextURL (pagingParams.Limit paging) since;
                         Paging.Since := since |};
                    PagedMessages.Messages :=
                      toExternalMessages json_Unmarshal useMessages |}
        end
    end
  else
    Some {| PagedMessages.Paging :=
              {| Paging.Size := Z.of_nat (length messages);
                 Paging.Limit := pagingParams.Limit paging;
                 Paging.Next := "";
                 Paging.Since := 0%N |};
            PagedMessages.Messages := toExternalMessages json_Unmarshal messages |}.

End PagingCode.

(** ** More about the registry *)

(** A message without registry entry and without pending job. *)
Definition cleared (msgId : uint) (w : World) : Prop :=
  jobs w !! msgId = None ∧ gocron.jobsOf msgId (cron w) = [].

(** Registry entries name jobs the engine has handed out, and an entry that
    names a pending job belongs to the message of that job. *)
Definition registry_sound (w : World) : Prop :=
  (∀ id u, jobs w !! id = Some u → (u < gocron.next_id (cron w))%N) ∧
  (∀ j id, j ∈ gocron.pending (cron w) → jobs w !! id = Some (gocron.ID j) →
           gocron.Task j = id).

(** The clock, the store and the dispatch sink are the same in both states. *)
Definition untouched (w w' : World) : Prop :=
  clock w' = clock w ∧ messages w' = messages w ∧
  applications w' = applications w ∧ delivered w' = delivered w.

(** The registry, the engine, the dispatch sink and the clock are the same
    in both states: only the store may differ. *)
Definition quiet (w w' : World) : Prop :=
  jobs w' = jobs w ∧ cron w' = cron w ∧ delivered w' = delivered w ∧
  clock w' = clock w.

(** The two lookups every handler on a single message starts with: the
    message named by the [id] parameter, then its application. *)
Definition looked_up (ctx : Context) (w : World) (msg : Message.t)
    (app : option Application.t) (w2 : World) : Prop :=
  ∃ id w1, param_id ctx = Some id ∧
           GetMessageByID id w = (Ok (Some msg), w1) ∧
           GetApplicationByID (Message.ApplicationID msg) w1 = (Ok app, w2).

(* user 4 asks for message 1, which belongs to an application of user 3 *)
Definition stranger : Context :=
  {| auth_UserID := 4%N; auth_TokenID := ""; param_id := Some 1%N; bound := None |}.

(* user 3 asks for message 1 *)
Definition owner : Context :=
  {| auth_UserID := 3%N; auth_TokenID := ""; param_id := Some 1%N; bound := None |}.

(* a stand-in for the address of the next page *)
Definition first_url (limit : Z) (since : uint) : string := "/message?page".

(* an encoder that writes every map as the text {} *)
Definition braces_out (_ : list (string * JSON)) : list Byte.byte :=
  [Byte.x7b; Byte.x7d].

(* message 5, whose extras are the text {} *)
Definition tagged : Message.t :=
  Message.mk 5%N 7%N "tagged" "extras" 1 [Byte.x7b; Byte.x7d] 9 None.



(* message 3 of application 9, postponed to instant 40 *)
Definition report : Message.t :=
  Message.mk 3%N 9%N "report ready" "monthly" 1 [] 9 (Some 40).

(* application 9 belongs to user 4 *)
Definition report_app : Application.t :=
  Application.mk 9%N "Areport" 4%N "report" 0.

(* messages 1 and 3 are both scheduled; two applications, two users *)
Definition busy : World :=
  ScheduleMessage future_only 3%N 40
    (ScheduleMessage future_only 1%N 20
       {| clock := 10; messages := [nightly; report];
          applications := [backup_app; report_app];
          faults := []; cron := gocron.NewScheduler; jobs := ∅;
          delivered := []; stdout := [] |}).

Definition report_job : gocron.Job := gocron.mkJob 1%N 40 3%N.

(** * Properties *)

(** ** The conversions *)

Section ConversionFacts.

Variable json_Marshal : list (string * JSON) → list Byte.byte.
Variable json_Unmarshal : list Byte.byte → option (list (string * JSON)).

(** With no extras the internal message carries no bytes, and the external
    message built from it has a nil [Extras] again. *)
Lemma toInternalMessage_nil_extras (m : MessageExternal.t) :
  MessageExternal.Extras m = None →
  Message.Extras (toInternalMessage json_Marshal m) = [].
Proof. intros H. unfold toInternalMessage. simpl. by rewrite H. Qed.

(** C10: for an external message with a non-nil Priority and nil Extras,
    converting to the internal form and back gives a message that agrees
    with the original on ID, ApplicationID, Message, Title, Priority, Date
    and PostponedAt; the postponement is neither dropped nor altered. *)
Theorem external_internal_roundtrip (m : MessageExternal.t) (p : Z) :
  MessageExternal.Priority m = Some p →
  MessageExternal.Extras m = None →
  let m' := ToExternalMessage json_Unmarshal (toInternalMessage json_Marshal m) in
  MessageExternal.ID m' = MessageExternal.ID m ∧
  MessageExternal.ApplicationID m' = MessageExternal.ApplicationID m ∧
  MessageExternal.Message m' = MessageExternal.Message m ∧
  MessageExternal.Title m' = MessageExternal.Title m ∧
  MessageExternal.Priority m' = MessageExternal.Priority m ∧
  MessageExternal.Date m' = MessageExternal.Date m ∧
  MessageExternal.PostponedAt m' = MessageExternal.PostponedAt m.
Proof.
  intros Hp He m'. subst m'.
  unfold ToExternalMessage, toInternalMessage. simpl.
  rewrite Hp. repeat split; reflexivity.
Qed.

(** Under the same conditions the round trip is the identity. *)
Lemma external_internal_identity (m : MessageExternal.t) (p : Z) :
  MessageExternal.Priority m = Some p →
  MessageExternal.Extras m = None →
  ToExternalMessage json_Unmarshal (toInternalMessage json_Marshal m) = m.
Proof.
  intros Hp He. destruct m as [i a msg t pr ex d po]. simpl in *. subst.
  reflexivity.
Qed.

(** A nil Priority comes back as a pointer to 0: the condition on Priority
    is needed. *)
Lemma nil_priority_becomes_zero (m : MessageExternal.t) :
  MessageExternal.Priority m = None →
  MessageExternal.Priority
    (ToExternalMessage json_Unmarshal (toInternalMessage json_Marshal m)) = Some 0.
Proof. intros H. unfold ToExternalMessage, toInternalMessage. simpl. by rewrite H. Qed.

End ConversionFacts.

Lemma external_internal_roundtrip_witness :
  let m' := ToExternalMessage no_extras_in (toInternalMessage no_extras_out nightly_ext) in
  MessageExternal.ID m' = 1%N ∧
  MessageExternal.ApplicationID m' = 7%N ∧
  MessageExternal.Message m' = "backup done" ∧
  MessageExternal.Title m' = "nightly" ∧
  MessageExternal.Priority m' = Some 5 ∧
  MessageExternal.Date m' = 8 ∧
  MessageExternal.PostponedAt m' = Some 20.
Proof.
  apply (external_internal_roundtrip no_extras_out no_extras_in nightly_ext 5);
    reflexivity.
Defined.

(** ** The store calls *)

Lemma store_call_frame (w : World) :
  let w1 := (store_call w).2 in
  clock w1 = clock w ∧ messages w1 = messages w ∧ applications w1 = applications w ∧
  cron w1 = cron w ∧ jobs w1 = jobs w ∧ delivered w1 = delivered w ∧
  stdout w1 = stdout w.
Proof. unfold store_call. destruct (faults w); simpl; repeat split; reflexivity. Qed.

Lemma First_by_id_world (msgId : uint) (w : World) :
  (First_by_id msgId w).2 = (store_call w).2.
Proof.
  unfold First_by_id. destruct (store_call w) as [[e|] w1]; simpl; [done|].
  by destruct (filter _ (messages w1)).
Qed.

Lemma First_by_id_set_cron (msgId : uint) (s : gocron.Scheduler) (w : World) :
  (First_by_id msgId (set_cron s w)).1 = (First_by_id msgId w).1.
Proof.
  unfold First_by_id, store_call. simpl.
  destruct (faults w) as [|[e|] rest]; simpl; try done;
    by destruct (filter _ (messages w)).
Qed.

(** A reloaded message is a row of the table with the identifier asked
    for. *)
Lemma First_by_id_found (msgId : uint) (w : World) (m : Message.t) :
  (First_by_id msgId w).1 = Ok m → Message.ID m = msgId ∧ m ∈ messages w.
Proof.
  unfold First_by_id, store_call.
  destruct (faults w) as [|[e|] rest]; simpl; try done.
  - destruct (filter _ (messages w)) as [|m' l] eqn:E; simpl; [done|].
    intros [= ->].
    assert (m ∈ filter (λ m0, Message.ID m0 = msgId) (messages w)) as H
      by (rewrite E; left).
    apply list_elem_of_filter in H. done.
  - destruct (filter _ (messages w)) as [|m' l] eqn:E; simpl; [done|].
    intros [= ->].
    assert (m ∈ filter (λ m0, Message.ID m0 = msgId) (messages w)) as H
      by (rewrite E; left).
    apply list_elem_of_filter in H. done.
Qed.

(** ** Cancelling *)

(** C8: cancelling a message that has no registry entry (never scheduled,
    already fired or already cancelled) returns normally and changes
    nothing, the Job Registry included. *)
Theorem DeleteMessageSchedule_absent (message : Message.t) (w : World) :
  jobs w !! Message.ID message = None →
  DeleteMessageSchedule message w = w.
Proof. intros H. unfold DeleteMessageSchedule. by rewrite H. Qed.

Lemma DeleteMessageSchedule_absent_witness :
  DeleteMessageSchedule nightly morning = morning.
Proof. apply (DeleteMessageSchedule_absent nightly morning). reflexivity. Defined.

(** Cancelling twice is cancelling once. *)
Lemma DeleteMessageSchedule_idempotent (message : Message.t) (w : World) :
  DeleteMessageSchedule message (DeleteMessageSchedule message w)
  = DeleteMessageSchedule message w.
Proof.
  unfold DeleteMessageSchedule at 1.
  assert (jobs (DeleteMessageSchedule message w) !! Message.ID message = None) as ->; [|done].
  unfold DeleteMessageSchedule.
  destruct (jobs w !! Message.ID message) eqn:E; simpl; [|done].
  apply lookup_delete_eq.
Qed.

Lemma DeleteMessageSchedule_frame (message : Message.t) (w : World) :
  let w' := DeleteMessageSchedule message w in
  clock w' = clock w ∧ messages w' = messages w ∧ applications w' = applications w ∧
  faults w' = faults w ∧ delivered w' = delivered w ∧ stdout w' = stdout w.
Proof.
  unfold DeleteMessageSchedule.
  destruct (jobs w !! Message.ID message); simpl; repeat split; reflexivity.
Qed.

Lemma DeleteMessageSchedule_registry (message : Message.t) (w : World) :
  jobs (DeleteMessageSchedule message w) = delete (Message.ID message) (jobs w).
Proof.
  unfold DeleteMessageSchedule.
  destruct (jobs w !! Message.ID message) eqn:E; simpl; [done|].
  symmetry. by apply delete_id.
Qed.

(** ** The fire-time task *)

Section TaskFacts.

Variable json_Unmarshal : list Byte.byte → option (list (string * JSON)).

#[local] Abbreviation ToExternal := (ToExternalMessage json_Unmarshal).
#[local] Abbreviation fire' := (fire json_Unmarshal).

Lemma fire_due (job : gocron.Job) (w : World) :
  job ∈ gocron.pending (cron w) →
  gocron.StartDateTime job ≤ clock w →
  fire' job w = Some (task json_Unmarshal (gocron.Task job) (left_pending job w)).
Proof. intros Hin Hdue. unfold fire. rewrite decide_True; done. Qed.

Lemma fire_not_due (job : gocron.Job) (w : World) :
  clock w < gocron.StartDateTime job → fire' job w = None.
Proof. intros H. unfold fire. rewrite decide_False; [done|]. intros [_ ?]. lia. Qed.

Lemma task_found (msgId : uint) (w : World) (m : Message.t) :
  (First_by_id msgId w).1 = Ok m →
  task json_Unmarshal msgId w
  = Returned (Notify (Message.ApplicationID m) (ToExternal m)
                (DeleteMessageSchedule m (store_call w).2)).
Proof.
  intros H. unfold task. rewrite <- (First_by_id_world msgId w).
  destruct (First_by_id msgId w) as [r w1]. simpl in *. by subst r.
Qed.

Lemma task_failed (msgId : uint) (w : World) (err : Error) :
  (First_by_id msgId w).1 = Err err →
  task json_Unmarshal msgId w
  = Panicked err (Println (ErrorGettingMessage msgId err) (store_call w).2).
Proof.
  intros H. unfold task. rewrite <- (First_by_id_world msgId w).
  destruct (First_by_id msgId w) as [r w1]. simpl in *. by subst r.
Qed.

(** What a due job does when its message is reloaded. *)
Lemma fire_found (job : gocron.Job) (w : World) (m : Message.t) :
  job ∈ gocron.pending (cron w) →
  gocron.StartDateTime job ≤ clock w →
  (First_by_id (gocron.Task job) w).1 = Ok m →
  ∃ w',
    fire' job w = Some (Returned w') ∧
    clock w' = clock w ∧
    messages w' = messages w ∧
    jobs w' !! Message.ID m = None ∧
    delivered w' = delivered w ++ [(Message.ApplicationID m, ToExternal m)] ∧
    stdout w' = stdout w.
Proof.
  intros Hin Hdue Hm.
  assert ((First_by_id (gocron.Task job) (left_pending job w)).1 = Ok m) as Hm'
    by (unfold left_pending; by rewrite First_by_id_set_cron).
  eexists.
  split; [rewrite (fire_due _ _ Hin Hdue), (task_found _ _ _ Hm'); reflexivity|].
  destruct (store_call_frame (left_pending job w)) as (Hc & Hms & _ & _ & _ & Hd & Ho).
  destruct (DeleteMessageSchedule_frame m (store_call (left_pending job w)).2)
    as (Hc' & Hms' & _ & _ & Hd' & Ho').
  simpl in *.
  repeat split.
  - by rewrite Hc', Hc.
  - by rewrite Hms', Hms.
  - rewrite DeleteMessageSchedule_registry. apply lookup_delete_eq.
  - by rewrite Hd', Hd.
  - by rewrite Ho', Ho.
Qed.

(** C1 (amended): when a job fires and its message is reloaded from the
    store, the task removes the registry entry of the message and hands the
    message to the dispatch sink as it is stored, its postponedAt included;
    the task writes nothing to the store, so the persisted message keeps
    its postponement. *)
Theorem fired_message_keeps_postponedAt (job : gocron.Job) (w : World) (m : Message.t) :
  job ∈ gocron.pending (cron w) →
  gocron.StartDateTime job ≤ clock w →
  (First_by_id (gocron.Task job) w).1 = Ok m →
  ∃ w' owner,
    fire' job w = Some (Returned w') ∧
    messages w' = messages w ∧
    m ∈ messages w' ∧
    jobs w' !! Message.ID m = None ∧
    delivered w' = delivered w ++ [(owner, ToExternal m)] ∧
    MessageExternal.PostponedAt (ToExternal m) = Message.PostponedAt m.
Proof.
  intros Hin Hdue Hm.
  destruct (fire_found job w m Hin Hdue Hm) as (w' & Hf & _ & Hms & Hj & Hd & _).
  destruct (First_by_id_found _ _ _ Hm) as [_ Hrow].
  exists w', (Message.ApplicationID m).
  repeat split; try done. by rewrite Hms.
Qed.

(** C3 (amended): when the reload of the message fails at fire time (the
    row is gone or the store call fails), the task prints the error and then
    panics with it; it has not touched the registry, the store or the
    dispatch sink, and every other pending job is still pending. *)
Theorem failed_reload_panics (job : gocron.Job) (w : World) (err : Error) :
  job ∈ gocron.pending (cron w) →
  gocron.StartDateTime job ≤ clock w →
  (First_by_id (gocron.Task job) w).1 = Err err →
  ∃ w',
    fire' job w = Some (Panicked err w') ∧
    stdout w' = stdout w ++ [ErrorGettingMessage (gocron.Task job) err] ∧
    jobs w' = jobs w ∧
    messages w' = messages w ∧
    delivered w' = delivered w ∧
    (∀ j, j ∈ gocron.pending (cron w) → gocron.ID j ≠ gocron.ID job →
          j ∈ gocron.pending (cron w')).
Proof.
  intros Hin Hdue Hm.
  assert ((First_by_id (gocron.Task job) (left_pending job w)).1 = Err err) as Hm'
    by (unfold left_pending; by rewrite First_by_id_set_cron).
  eexists. split; [rewrite (fire_due _ _ Hin Hdue), (task_failed _ _ _ Hm'); reflexivity|].
  destruct (store_call_frame (left_pending job w)) as (_ & Hms & _ & Hc & Hj & Hd & Ho).
  simpl in *. rewrite Ho, Hj, Hms, Hd, Hc. repeat split; try reflexivity.
  intros j Hj' Hne. apply list_elem_of_filter. done.
Qed.

(** The identifier handed to the dispatch sink is the ApplicationID of the
    message. *)
Lemma fired_message_goes_to_ApplicationID (job : gocron.Job) (w : World) (m : Message.t) :
  job ∈ gocron.pending (cron w) →
  gocron.StartDateTime job ≤ clock w →
  (First_by_id (gocron.Task job) w).1 = Ok m →
  ∃ w', fire' job w = Some (Returned w') ∧
        delivered w' = delivered w ++ [(Message.ApplicationID m, ToExternal m)].
Proof.
  intros Hin Hdue Hm.
  destruct (fire_found job w m Hin Hdue Hm) as (w' & Hf & _ & _ & _ & Hd & _).
  by exists w'.
Qed.

End TaskFacts.

Lemma fired_message_keeps_postponedAt_witness :
  ∃ w' owner,
    fire no_extras_in nightly_job noon = Some (Returned w') ∧
    messages w' = messages noon ∧
    nightly ∈ messages w' ∧
    jobs w' !! Message.ID nightly = None ∧
    delivered w' = delivered noon ++ [(owner, ToExternalMessage no_extras_in nightly)] ∧
    MessageExternal.PostponedAt (ToExternalMessage no_extras_in nightly)
    = Message.PostponedAt nightly.
Proof.
  apply (fired_message_keeps_postponedAt no_extras_in nightly_job noon nightly).
  - vm_compute. left.
  - vm_compute. discriminate.
  - reflexivity.
Defined.

(** After the job of message 1 has fired and the message was delivered, the
    stored message is still postponed to instant 20. *)
Lemma fired_message_still_postponed :
  ∃ w',
    fire no_extras_in nightly_job noon = Some (Returned w') ∧
    messages w' = [nightly] ∧
    Message.PostponedAt nightly = Some 20 ∧
    delivered w' = [(7%N, nightly_ext)].
Proof. eexists. split; [vm_compute; reflexivity|]. repeat split. Qed.

(** C2: the fired delivery of message 1 is addressed to 7, the identifier of
    its application, while the application belongs to user 3; a message
    created without postponement by the same application is delivered to
    user 3. *)
Theorem fired_delivery_addressed_to_application :
  (∃ w', fire no_extras_in nightly_job noon = Some (Returned w') ∧
         delivered w' = [(7%N, nightly_ext)]) ∧
  (GetApplicationByID (Message.ApplicationID nightly) noon).1 = Ok (Some backup_app) ∧
  Application.UserID backup_app = 3%N ∧
  (∃ w', CreateMessage future_only no_extras_out no_extras_in (request None) morning
         = (WroteJSON 200 (alert_ext None), w') ∧
         delivered w' = [(3%N, alert_ext None)]).
Proof.
  split; [|split; [|split]].
  - eexists. split; [vm_compute; reflexivity|]. reflexivity.
  - reflexivity.
  - reflexivity.
  - eexists. split; [vm_compute; reflexivity|]. reflexivity.
Qed.

Lemma failed_reload_panics_witness :
  ∃ w',
    fire no_extras_in nightly_job noon_deleted = Some (Panicked ErrRecordNotFound w') ∧
    stdout w' = stdout noon_deleted ++ [ErrorGettingMessage (gocron.Task nightly_job) ErrRecordNotFound] ∧
    jobs w' = jobs noon_deleted ∧
    messages w' = messages noon_deleted ∧
    delivered w' = delivered noon_deleted ∧
    (∀ j, j ∈ gocron.pending (cron noon_deleted) →
          gocron.ID j ≠ gocron.ID nightly_job → j ∈ gocron.pending (cron w')).
Proof.
  apply (failed_reload_panics no_extras_in nightly_job noon_deleted ErrRecordNotFound).
  - vm_compute. left.
  - vm_compute. discriminate.
  - reflexivity.
Defined.

(** The job of message 1 fires after the message was deleted: the task
    panics. *)
Lemma deleted_message_panics_at_fire_time :
  ∃ w',
    fire no_extras_in nightly_job noon_deleted = Some (Panicked ErrRecordNotFound w') ∧
    stdout w' = [ErrorGettingMessage 1%N ErrRecordNotFound].
Proof. eexists. split; [vm_compute; reflexivity|]. reflexivity. Qed.

(** ** Scheduling *)

Section ScheduleFacts.

Variable admits : Time → Time → bool.
Variable json_Unmarshal : list Byte.byte → option (list (string * JSON)).

#[local] Abbreviation Schedule := (ScheduleMessage admits).

(** The job [NewJob] would create in [w]. *)
Lemma ScheduleMessage_accepted (msgId : uint) (postponedAt : Time) (w : World) :
  admits (clock w) postponedAt = true →
  let job := gocron.mkJob (gocron.next_id (cron w)) postponedAt msgId in
  Schedule msgId postponedAt w
  = set_jobs (<[msgId := gocron.ID job]> (jobs w))
      (set_cron (gocron.mkScheduler (gocron.pending (cron w) ++ [job])
                                    (N.succ (gocron.next_id (cron w)))) w).
Proof. intros H. unfold ScheduleMessage, gocron.NewJob. by rewrite H. Qed.

Lemma ScheduleMessage_frame (msgId : uint) (postponedAt : Time) (w : World) :
  let w' := Schedule msgId postponedAt w in
  clock w' = clock w ∧ messages w' = messages w ∧ applications w' = applications w ∧
  faults w' = faults w ∧ delivered w' = delivered w.
Proof.
  unfold ScheduleMessage, gocron.NewJob.
  destruct (admits (clock w) postponedAt); simpl; repeat split; reflexivity.
Qed.

(** C7 (amended): when the timer engine rejects the request, ScheduleMessage
    gives up: the Job Registry, the engine, the store and the dispatch sink
    are as before, and the failure is printed on standard output.  The
    function has no result, so its caller is not told. *)
Theorem rejected_schedule_only_logged (msgId : uint) (postponedAt : Time) (w : World)
    (err : Error) :
  gocron.NewJob admits (clock w) postponedAt msgId (cron w) = Err err →
  let w' := Schedule msgId postponedAt w in
  jobs w' = jobs w ∧
  cron w' = cron w ∧
  messages w' = messages w ∧
  delivered w' = delivered w ∧
  stdout w' = stdout w ++ [ErrorSchedulingMessage msgId err].
Proof.
  intros H. unfold ScheduleMessage. rewrite H. simpl. repeat split; reflexivity.
Qed.

(** ScheduleMessage makes no test of its own on the instant: with an engine
    that takes the request, also for an instant that is not in the future,
    nothing is printed, a job for the message is pending and registered,
    and it is due at once. *)
Lemma past_instant_scheduled_when_accepted (msgId : uint) (postponedAt : Time)
    (w : World) :
  postponedAt ≤ clock w →
  admits (clock w) postponedAt = true →
  let w' := Schedule msgId postponedAt w in
  ∃ job,
    jobs w' !! msgId = Some (gocron.ID job) ∧
    job ∈ gocron.pending (cron w') ∧
    gocron.StartDateTime job = postponedAt ∧
    gocron.Task job = msgId ∧
    stdout w' = stdout w ∧
    (∀ m, (First_by_id msgId w').1 = Ok m →
          ∃ w'' owner,
            fire json_Unmarshal job w' = Some (Returned w'') ∧
            delivered w'' = delivered w ++ [(owner, ToExternalMessage json_Unmarshal m)]).
Proof.
  intros Hpast Hadm w'. subst w'.
  rewrite (ScheduleMessage_accepted _ _ _ Hadm).
  set (job := gocron.mkJob (gocron.next_id (cron w)) postponedAt msgId).
  set (w' := set_jobs _ _).
  assert (job ∈ gocron.pending (cron w')) as Hin
    by (simpl; apply elem_of_app; right; left).
  exists job. repeat split; try done.
  - simpl. apply lookup_insert_eq.
  - intros m Hm.
    destruct (fire_found json_Unmarshal job w' m Hin)
      as (w'' & Hf & _ & _ & _ & Hd & _); [done|done|].
    by exists w'', (Message.ApplicationID m).
Qed.

End ScheduleFacts.

Lemma rejected_schedule_only_logged_witness :
  let w' := ScheduleMessage future_only 1%N 5 morning in
  jobs w' = jobs morning ∧
  cron w' = cron morning ∧
  messages w' = messages morning ∧
  delivered w' = delivered morning ∧
  stdout w' = stdout morning ++ [ErrorSchedulingMessage 1%N ErrNewJob].
Proof.
  apply (rejected_schedule_only_logged future_only 1%N 5 morning ErrNewJob).
  reflexivity.
Defined.

(** A message created with a postponement the engine refuses is answered
    exactly as when the engine takes it: status 200 and the message. *)
Lemma rejected_schedule_not_reported :
  gocron.NewJob future_only (clock morning) 5 2%N (cron morning) = Err ErrNewJob ∧
  ∃ w_refused w_taken,
    CreateMessage future_only no_extras_out no_extras_in (request (Some 5)) morning
    = (WroteJSON 200 (alert_ext (Some 5)), w_refused) ∧
    CreateMessage any_instant no_extras_out no_extras_in (request (Some 5)) morning
    = (WroteJSON 200 (alert_ext (Some 5)), w_taken) ∧
    jobs w_refused !! 2%N = None ∧
    jobs w_taken !! 2%N = Some 0%N.
Proof.
  split; [reflexivity|].
  eexists _, _. split; [vm_compute; reflexivity|].
  split; [vm_compute; reflexivity|]. split; reflexivity.
Qed.

(** Instant 5 has passed at instant 10: an engine that only takes future
    start instants refuses the job, nothing is registered and nothing is
    left to fire. *)
Lemma past_instant_refused :
  5 ≤ clock morning ∧
  let w' := ScheduleMessage future_only 1%N 5 morning in
  jobs w' = ∅ ∧
  gocron.pending (cron w') = [] ∧
  stdout w' = [ErrorSchedulingMessage 1%N ErrNewJob] ∧
  delivered w' = [].
Proof. split; [vm_compute; discriminate|]. repeat split. Qed.

(** C4 (amended): for every message and every instant that is not strictly
    in the future when ScheduleMessage is called, the call returns normally
    but schedules nothing: the engine, whose one-time job must start in the
    future, refuses the job; ScheduleMessage prints the failure and leaves
    the Job Registry, the engine, the store and the dispatch sink as they
    were, so no delivery follows from the call. *)
Theorem past_instant_is_refused (msgId : uint) (postponedAt : Time) (w : World) :
  postponedAt ≤ clock w →
  let w' := ScheduleMessage future_only msgId postponedAt w in
  jobs w' = jobs w ∧
  cron w' = cron w ∧
  messages w' = messages w ∧
  delivered w' = delivered w ∧
  stdout w' = stdout w ++ [ErrorSchedulingMessage msgId ErrNewJob].
Proof.
  intros Hpast. simpl.
  assert (future_only (clock w) postponedAt = false) as Hno
    by (unfold future_only; apply Z.ltb_ge; lia).
  unfold ScheduleMessage, gocron.NewJob. rewrite Hno. simpl.
  repeat split; reflexivity.
Qed.

Lemma past_instant_is_refused_witness :
  jobs (ScheduleMessage future_only 1%N 5 morning) = jobs morning ∧
  cron (ScheduleMessage future_only 1%N 5 morning) = cron morning ∧
  messages (ScheduleMessage future_only 1%N 5 morning) = messages morning ∧
  delivered (ScheduleMessage future_only 1%N 5 morning) = delivered morning ∧
  stdout (ScheduleMessage future_only 1%N 5 morning)
  = stdout morning ++ [ErrorSchedulingMessage 1%N ErrNewJob].
Proof.
  apply (past_instant_is_refused 1%N 5 morning). vm_compute. discriminate.
Defined.

(** ** Cascade cancellation *)

(** C9 (amended): when the listing a cascade cancellation starts with fails,
    the error is dropped: for that listing nothing is cancelled and nothing
    is printed, the function returns normally and has no result through
    which its caller could learn of the failure. *)
Theorem cascade_read_failure_dropped (appID userID : uint) (w : World)
    (err : Error) (rest : list (option Error)) :
  faults w = Some err :: rest →
  DeleteMessagesScheduleByApplication appID w = set_faults rest w ∧
  DeleteMessagesScheduleByUser userID w = set_faults rest w.
Proof.
  intros H. split.
  - unfold DeleteMessagesScheduleByApplication, Find_by_application, store_call.
    rewrite H. reflexivity.
  - unfold DeleteMessagesScheduleByUser, GetApplicationsByUser, store_call.
    rewrite H. reflexivity.
Qed.

Lemma cascade_read_failure_dropped_witness :
  DeleteMessagesScheduleByApplication 7%N (set_faults [Some (ErrStore 1)] scheduled)
  = set_faults [] (set_faults [Some (ErrStore 1)] scheduled) ∧
  DeleteMessagesScheduleByUser 3%N (set_faults [Some (ErrStore 1)] scheduled)
  = set_faults [] (set_faults [Some (ErrStore 1)] scheduled).
Proof.
  apply (cascade_read_failure_dropped 7%N 3%N
           (set_faults [Some (ErrStore 1)] scheduled) (ErrStore 1) []).
  reflexivity.
Defined.

(** User 3 deletes all messages while the listing of the applications
    fails: the handler answers as on success (nothing written, status 200),
    the messages are deleted, and the job of message 1 is still pending and
    registered. *)
Lemma cascade_read_failure_not_surfaced :
  (GetApplicationsByUser 3%N (set_faults [Some (ErrStore 1)] scheduled)).1.2
  = Some (ErrStore 1) ∧
  ∃ w',
    DeleteMessages (request None) (set_faults [Some (ErrStore 1)] scheduled)
    = (Untouched, w') ∧
    messages w' = [] ∧
    gocron.pending (cron w') = [nightly_job] ∧
    jobs w' !! 1%N = Some 0%N ∧
    stdout w' = [].
Proof.
  split; [reflexivity|].
  eexists. split; [vm_compute; reflexivity|]. repeat split.
Qed.

(** With a healthy store the same request cancels the job. *)
Lemma cascade_cancels_when_listing_succeeds :
  ∃ w',
    DeleteMessages (request None) scheduled = (Untouched, w') ∧
    gocron.pending (cron w') = [] ∧
    jobs w' !! 1%N = None.
Proof. eexists. split; [vm_compute; reflexivity|]. repeat split. Qed.

(** ** One timer per message *)

Lemma NoDup_ID_filter (P : gocron.Job → Prop) `{∀ j, Decision (P j)}
    (l : list gocron.Job) :
  NoDup (gocron.ID <$> l) → NoDup (gocron.ID <$> filter P l).
Proof.
  intros Hnd. eapply sublist_NoDup; [exact Hnd|].
  apply fmap_sublist, sublist_filter.
Qed.

Lemma coherent_frame (w w' : World) :
  cron w' = cron w → jobs w' = jobs w → coherent w → coherent w'.
Proof. unfold coherent. intros -> ->. done. Qed.

Lemma coherent_startup (w : World) : startup w → coherent w.
Proof.
  intros [_ Hp]. unfold coherent. rewrite Hp. simpl.
  split; [constructor|]. split; intros j Hj; by apply elem_of_nil in Hj.
Qed.

Lemma coherent_left_pending (job : gocron.Job) (w : World) :
  coherent w → coherent (left_pending job w).
Proof.
  intros (Hnd & Hlt & Hreg). unfold coherent, left_pending. simpl.
  split; [by apply NoDup_ID_filter|].
  split; intros j [_ Hj]%list_elem_of_filter; auto.
Qed.

Lemma coherent_DeleteMessageSchedule (message : Message.t) (w : World) :
  coherent w → coherent (DeleteMessageSchedule message w).
Proof.
  intros (Hnd & Hlt & Hreg). unfold DeleteMessageSchedule.
  destruct (jobs w !! Message.ID message) as [jobId|] eqn:E; [|done].
  unfold coherent. simpl.
  split; [by apply NoDup_ID_filter|].
  split; intros j [Hne Hj]%list_elem_of_filter; [auto|].
  rewrite lookup_delete_ne; [auto|].
  intros Heq. apply Hne. specialize (Hreg j Hj).
  rewrite <- Heq, E in Hreg. by injection Hreg.
Qed.

Lemma coherent_ScheduleMessage (admits : Time → Time → bool) (msgId : uint)
    (postponedAt : Time) (w : World) :
  coherent w →
  jobs w !! msgId = None →
  coherent (ScheduleMessage admits msgId postponedAt w).
Proof.
  intros (Hnd & Hlt & Hreg) Hnone.
  destruct (admits (clock w) postponedAt) eqn:Hadm.
  - rewrite (ScheduleMessage_accepted _ _ _ _ Hadm). unfold coherent. simpl.
    split; [|split].
    + rewrite fmap_app. apply NoDup_app. split; [done|]. split.
      * intros u (j & -> & Hj)%list_elem_of_fmap Hu. simpl in Hu.
        apply list_elem_of_singleton in Hu. specialize (Hlt j Hj). lia.
      * simpl. apply NoDup_singleton.
    + intros j [Hj| ->%list_elem_of_singleton]%elem_of_app; simpl.
      * specialize (Hlt j Hj). lia.
      * lia.
    + intros j [Hj| ->%list_elem_of_singleton]%elem_of_app; simpl.
      * rewrite lookup_insert_ne; [auto|].
        intros Heq. specialize (Hreg j Hj). rewrite <- Heq, Hnone in Hreg. done.
      * apply lookup_insert_eq.
  - unfold ScheduleMessage, gocron.NewJob. rewrite Hadm. done.
Qed.

(** Cancelling first makes room: this is how postponeMessage reschedules. *)
Lemma coherent_reschedule (admits : Time → Time → bool) (message : Message.t)
    (postponedAt : Time) (w : World) :
  coherent w →
  coherent (ScheduleMessage admits (Message.ID message) postponedAt
              (DeleteMessageSchedule message w)).
Proof.
  intros Hc. apply coherent_ScheduleMessage.
  - by apply coherent_DeleteMessageSchedule.
  - rewrite DeleteMessageSchedule_registry. apply lookup_delete_eq.
Qed.

Lemma coherent_cancel_all (found : list Message.t) (w : World) :
  coherent w →
  coherent (foldl (λ w' message, DeleteMessageSchedule message w') w found).
Proof.
  revert w. induction found as [|m l IH]; intros w Hc; simpl; [done|].
  apply IH. by apply coherent_DeleteMessageSchedule.
Qed.

Lemma coherent_store_call (w : World) : coherent w → coherent (store_call w).2.
Proof.
  destruct (store_call_frame w) as (_ & _ & _ & Hc & Hj & _).
  intros H. by eapply coherent_frame.
Qed.

Lemma coherent_cancel_application (appID : uint) (w : World) :
  coherent w → coherent (DeleteMessagesScheduleByApplication appID w).
Proof.
  intros Hc. unfold DeleteMessagesScheduleByApplication, Find_by_application.
  pose proof (coherent_store_call w Hc) as Hc1.
  destruct (store_call w) as [[e|] w1]; simpl in *; [done|by apply coherent_cancel_all].
Qed.

Lemma coherent_cancel_user (userID : uint) (w : World) :
  coherent w → coherent (DeleteMessagesScheduleByUser userID w).
Proof.
  intros Hc. unfold DeleteMessagesScheduleByUser, GetApplicationsByUser.
  pose proof (coherent_store_call w Hc) as Hc1.
  destruct (store_call w) as [[e|] w1]; simpl in *; [done|].
  generalize (filter (λ a, Application.UserID a = userID) (applications w1)).
  intros apps. revert w1 Hc1.
  induction apps as [|a l IH]; intros w1 Hc1; simpl; [done|].
  apply IH. by apply coherent_cancel_application.
Qed.

Lemma coherent_task (json_Unmarshal : list Byte.byte → option (list (string * JSON)))
    (msgId : uint) (w : World) :
  coherent w → coherent (after (task json_Unmarshal msgId w)).
Proof.
  intros Hc. unfold task.
  pose proof (First_by_id_world msgId w) as Hw.
  pose proof (coherent_store_call w Hc) as Hc1.
  destruct (First_by_id msgId w) as [[m|err] w1]; simpl in *; subst w1.
  - apply (coherent_frame (DeleteMessageSchedule m (store_call w).2)); try done.
    by apply coherent_DeleteMessageSchedule.
  - by apply (coherent_frame (store_call w).2).
Qed.

Lemma coherent_step (admits : Time → Time → bool)
    (json_Unmarshal : list Byte.byte → option (list (string * JSON))) (w w' : World) :
  step admits json_Unmarshal w w' → coherent w → coherent w'.
Proof.
  intros Hs Hc. destruct Hs as [msgId at_ w Hnone|msg at_ w|msg w|appID w|userID w
                                |job w o Hf|d w|msgs apps fs w].
  - by apply coherent_ScheduleMessage.
  - by apply coherent_reschedule.
  - by apply coherent_DeleteMessageSchedule.
  - by apply coherent_cancel_application.
  - by apply coherent_cancel_user.
  - unfold fire in Hf. case_decide; [|done]. injection Hf as <-.
    by apply coherent_task, coherent_left_pending.
  - by apply (coherent_frame w).
  - by apply (coherent_frame w).
Qed.

Lemma coherent_one_timer_each (w : World) : coherent w → one_timer_each w.
Proof.
  intros (Hnd & _ & Hreg) msgId. unfold gocron.jobsOf. split.
  - pose proof (NoDup_ID_filter (λ j, gocron.Task j = msgId) _ Hnd) as Hnd'.
    assert (∀ j, j ∈ filter (λ j, gocron.Task j = msgId) (gocron.pending (cron w)) →
                 jobs w !! msgId = Some (gocron.ID j)) as Hall.
    { intros j [<- Hj]%list_elem_of_filter. auto. }
    destruct (filter _ (gocron.pending (cron w))) as [|j1 [|j2 l]]; simpl; [lia|lia|].
    exfalso.
    pose proof (Hall j1 ltac:(left)) as H1.
    pose proof (Hall j2 ltac:(right; left)) as H2.
    rewrite H1 in H2. injection H2 as H2.
    simpl in Hnd'. apply NoDup_cons in Hnd' as [Hnotin _].
    apply Hnotin. rewrite H2. left.
  - intros j [<- Hj]%list_elem_of_filter. auto.
Qed.

(** The handler behind the postpone and un-postpone requests keeps the
    engine and the registry in agreement: it cancels before it schedules. *)
Lemma coherent_postponeMessage (admits : Time → Time → bool) (ctx : Context)
    (postponedAt : option Time) (w : World) :
  coherent w → coherent (postponeMessage admits ctx postponedAt w).2.
Proof.
  intros Hc. unfold postponeMessage.
  destruct (param_id ctx) as [id|]; [|done].
  unfold GetMessageByID.
  pose proof (coherent_store_call w Hc) as Hc1.
  destruct (store_call w) as [[e|] w1]; simpl in *; [done|].
  destruct (head (filter _ (messages w1))) as [msg|]; [|done].
  unfold GetApplicationByID.
  pose proof (coherent_store_call w1 Hc1) as Hc2.
  destruct (store_call w1) as [[e|] w2]; simpl in *; [done|].
  case_decide; [|done].
  set (w4 := match postponedAt with
             | Some at_ => ScheduleMessage admits (Message.ID msg) at_
                             (DeleteMessageSchedule msg w2)
             | None => DeleteMessageSchedule msg w2
             end).
  assert (coherent w4) as Hc4.
  { unfold w4. destruct postponedAt.
    - by apply coherent_reschedule.
    - by apply coherent_DeleteMessageSchedule. }
  unfold UpdateMessagePostponement.
  pose proof (coherent_store_call w4 Hc4) as Hc5.
  destruct (store_call w4) as [[e|] w5]; simpl in *; [done|].
  by apply (coherent_frame w5).
Qed.

(** C6 (amended): the registry is a map, so it never holds two entries for a
    message.  ScheduleMessage overwrites the entry of its message and does
    not cancel the timer behind it; it is the caller that cancels first, as
    postponeMessage does.  From a state in which the engine and the
    registry agree, at every point of every sequence of cancel-then-schedule,
    schedule of a message without entry, cancel, cascade cancel, fire, clock
    and store steps, every message has at most one pending timer, and that
    timer is the one its registry entry names. *)
Theorem one_timer_per_message (admits : Time → Time → bool)
    (json_Unmarshal : list Byte.byte → option (list (string * JSON))) (w w' : World) :
  coherent w →
  rtc (step admits json_Unmarshal) w w' →
  one_timer_each w'.
Proof.
  intros Hc Hrun. apply coherent_one_timer_each.
  induction Hrun as [|w w1 w2 Hs _ IH]; [done|].
  apply IH. by eapply coherent_step.
Qed.

Lemma one_timer_per_message_witness :
  one_timer_each
    (ScheduleMessage future_only 1%N 30 (DeleteMessageSchedule nightly scheduled)).
Proof.
  apply (one_timer_per_message future_only no_extras_in morning).
  - apply coherent_startup. split; reflexivity.
  - eapply rtc_l.
    + apply (step_schedule future_only no_extras_in 1%N 20 morning). reflexivity.
    + apply rtc_once. apply (step_reschedule future_only no_extras_in nightly 30).
Defined.

(** Message 1 is scheduled for instant 20 and then, without a cancel in
    between, for instant 30: two timers are pending for it, the registry
    names the second only. *)
Lemma rescheduling_without_cancel_leaves_two_timers :
  let w := ScheduleMessage future_only 1%N 30 scheduled in
  gocron.jobsOf 1%N (cron w) = [nightly_job; gocron.mkJob 1%N 30 1%N] ∧
  jobs w !! 1%N = Some 1%N.
Proof. split; reflexivity. Qed.

(** Why two timers matter: message 1 is scheduled for instant 30 and then,
    without a cancel, for instant 20.  The second job fires at 20 and
    delivers; the first one is still pending, fires at 30 and delivers the
    message again. *)
Lemma two_timers_deliver_twice :
  let w := tick 10 (ScheduleMessage future_only 1%N 20
                      (ScheduleMessage future_only 1%N 30 morning)) in
  ∃ w1 w2,
    fire no_extras_in (gocron.mkJob 1%N 20 1%N) w = Some (Returned w1) ∧
    fire no_extras_in (gocron.mkJob 0%N 30 1%N) (tick 10 w1) = Some (Returned w2) ∧
    delivered w2 = [(7%N, nightly_ext); (7%N, nightly_ext)].
Proof.
  eexists _, _. split; [vm_compute; reflexivity|].
  split; [vm_compute; reflexivity|]. reflexivity.
Qed.

(** ** Recovery at startup *)

Lemma NoDup_fmap_elem_eq {A B : Type} (f : A → B) (l : list A) (x y : A) :
  NoDup (f <$> l) → x ∈ l → y ∈ l → f x = f y → x = y.
Proof.
  induction l as [|a l IH]; simpl; intros Hnd Hx Hy Hf.
  - by apply elem_of_nil in Hx.
  - apply NoDup_cons in Hnd as [Hnotin Hnd].
    apply elem_of_cons in Hx as [->|Hx]; apply elem_of_cons in Hy as [->|Hy].
    + done.
    + exfalso. apply Hnotin. rewrite Hf. by apply list_elem_of_fmap_2.
    + exfalso. apply Hnotin. rewrite <- Hf. by apply list_elem_of_fmap_2.
    + by apply IH.
Qed.

Section RecoveryFacts.

Variable admits : Time → Time → bool.

#[local] Abbreviation recover :=
  (λ (w' : World) (message : Message.t),
     match Message.PostponedAt message with
     | Some postponedAt => ScheduleMessage admits (Message.ID message) postponedAt w'
     | None => w'
     end).

Lemma jobsOf_ScheduleMessage_accepted (id msgId : uint) (postponedAt : Time) (w : World) :
  admits (clock w) postponedAt = true →
  gocron.jobsOf id (cron (ScheduleMessage admits msgId postponedAt w))
  = gocron.jobsOf id (cron w)
    ++ (if decide (msgId = id)
        then [gocron.mkJob (gocron.next_id (cron w)) postponedAt msgId] else []).
Proof.
  intros Hadm. rewrite (ScheduleMessage_accepted _ _ _ _ Hadm).
  unfold gocron.jobsOf. simpl. rewrite filter_app.
  destruct (decide (msgId = id)) as [Heq|Hne].
  - by rewrite (filter_cons_True _ (gocron.mkJob _ _ _)).
  - by rewrite (filter_cons_False _ (gocron.mkJob _ _ _)).
Qed.

(** Scheduling a list of postponed messages with distinct identifiers, all
    taken by the engine: each gets one more pending job, registered under
    its identifier; the other messages are not touched. *)
Lemma recover_fold (l : list Message.t) (w : World) :
  NoDup (Message.ID <$> l) →
  (∀ m, m ∈ l → ∃ t, Message.PostponedAt m = Some t ∧ admits (clock w) t = true) →
  let w' := foldl recover w l in
  clock w' = clock w ∧
  (∀ id, id ∉ Message.ID <$> l →
         gocron.jobsOf id (cron w') = gocron.jobsOf id (cron w) ∧
         jobs w' !! id = jobs w !! id) ∧
  (∀ m t, m ∈ l → Message.PostponedAt m = Some t →
          ∃ job, gocron.jobsOf (Message.ID m) (cron w')
                 = gocron.jobsOf (Message.ID m) (cron w) ++ [job] ∧
                 gocron.StartDateTime job = t ∧
                 jobs w' !! Message.ID m = Some (gocron.ID job)).
Proof.
  revert w. induction l as [|m0 l IH]; intros w Hnd Hadm; simpl.
  - split; [done|]. split; [done|]. intros m t Hm. by apply elem_of_nil in Hm.
  - apply NoDup_cons in Hnd as [Hfresh Hnd].
    destruct (Hadm m0 ltac:(left)) as (t0 & Ht0 & Hadm0).
    rewrite Ht0.
    set (w1 := ScheduleMessage admits (Message.ID m0) t0 w).
    destruct (ScheduleMessage_frame admits (Message.ID m0) t0 w) as (Hclock & _).
    fold w1 in Hclock.
    assert (jobs w1 = <[Message.ID m0 := gocron.next_id (cron w)]> (jobs w)) as Hjobs
      by (unfold w1; by rewrite (ScheduleMessage_accepted _ _ _ _ Hadm0)).
    destruct (IH w1 Hnd) as (Hc & Hother & Hthese).
    { intros m Hm. rewrite Hclock. apply Hadm. by right. }
    split; [by rewrite Hc|]. split.
    + intros id Hid. apply not_elem_of_cons in Hid as [Hne Hid].
      destruct (Hother id Hid) as [-> ->]. unfold w1.
      rewrite (jobsOf_ScheduleMessage_accepted _ _ _ _ Hadm0), decide_False by done.
      rewrite app_nil_r. split; [done|].
      fold w1. rewrite Hjobs. by apply lookup_insert_ne.
    + intros m t [->|Hm]%elem_of_cons Hpost.
      * destruct (Hother (Message.ID m0) Hfresh) as [-> ->].
        assert (t = t0) as -> by congruence.
        exists (gocron.mkJob (gocron.next_id (cron w)) t0 (Message.ID m0)).
        unfold w1 at 1.
        rewrite (jobsOf_ScheduleMessage_accepted _ _ _ _ Hadm0), decide_True by done.
        split; [done|]. split; [done|].
        rewrite Hjobs. apply lookup_insert_eq.
      * destruct (Hthese m t Hm Hpost) as (job & Hjobs' & Hstart & Hreg).
        exists job. split; [|done].
        rewrite Hjobs'. unfold w1.
        rewrite (jobsOf_ScheduleMessage_accepted _ _ _ _ Hadm0), decide_False.
        -- by rewrite app_nil_r.
        -- intros Heq. apply Hfresh. rewrite Heq. by apply list_elem_of_fmap_2.
Qed.

(** For any engine that takes the requests it is given: scheduleAll runs in
    a process that has just started, over a store that answers its query
    and whose messages have distinct identifiers.  Afterwards every message
    postponed to the instant of the call or later has exactly one pending
    job, set to its postponedAt and named by its registry entry, and every
    message postponed to an earlier instant has neither a job nor an
    entry. *)
Lemma scheduleAll_recovers (w : World) :
  startup w →
  NoDup (Message.ID <$> messages w) →
  (store_call w).1 = None →
  (∀ m t, m ∈ messages w → Message.PostponedAt m = Some t → clock w ≤ t →
          admits (clock w) t = true) →
  let w' := scheduleAll admits w in
  ∀ m t, m ∈ messages w → Message.PostponedAt m = Some t →
    (clock w ≤ t →
       ∃ job, gocron.jobsOf (Message.ID m) (cron w') = [job] ∧
              gocron.StartDateTime job = t ∧
              jobs w' !! Message.ID m = Some (gocron.ID job)) ∧
    (t < clock w →
       gocron.jobsOf (Message.ID m) (cron w') = [] ∧
       jobs w' !! Message.ID m = None).
Proof.
  intros [Hjobs Hpend] Hnd Hok Hadm w' m t Hm Hpost. subst w'.
  unfold scheduleAll, Find_postponed.
  destruct (store_call_frame w) as (Hclock & Hmsgs & _ & Hcron & Hreg & _).
  destruct (store_call w) as [e w1]. simpl in *. subst e.
  rewrite Hmsgs.
  set (found := filter (postponed_from (clock w)) (messages w)).
  assert (NoDup (Message.ID <$> found)) as Hnd'.
  { eapply sublist_NoDup; [exact Hnd|]. apply fmap_sublist, sublist_filter. }
  destruct (recover_fold found w1 Hnd') as (_ & Hother & Hthese).
  { intros m' [Hdue Hm']%list_elem_of_filter. unfold postponed_from in Hdue.
    destruct (Message.PostponedAt m') as [t'|] eqn:E; [|done].
    exists t'. split; [done|]. rewrite Hclock. by apply (Hadm m'). }
  assert (∀ id, gocron.jobsOf id (cron w1) = []) as Hnone
    by (intros id; unfold gocron.jobsOf; by rewrite Hcron, Hpend).
  split.
  - intros Hdue.
    assert (m ∈ found) as Hfound.
    { apply list_elem_of_filter. split; [|done]. unfold postponed_from. by rewrite Hpost. }
    destruct (Hthese m t Hfound Hpost) as (job & Hj & Hs & Hr).
    exists job. rewrite Hnone in Hj. done.
  - intros Hpast.
    assert (Message.ID m ∉ Message.ID <$> found) as Hnot.
    { intros (m' & Heq & [Hdue Hm']%list_elem_of_filter)%list_elem_of_fmap.
      assert (m = m') as <- by (by apply (NoDup_fmap_elem_eq Message.ID (messages w))).
      unfold postponed_from in Hdue. rewrite Hpost in Hdue. lia. }
    destruct (Hother _ Hnot) as [-> ->].
    rewrite Hnone, Hreg, Hjobs. split; [done|]. apply lookup_empty.
Qed.

End RecoveryFacts.

Lemma scheduleAll_recovers_witness :
  (∃ job, gocron.jobsOf 1%N (cron (scheduleAll future_only restart)) = [job] ∧
          gocron.StartDateTime job = 20 ∧
          jobs (scheduleAll future_only restart) !! 1%N = Some (gocron.ID job)) ∧
  (gocron.jobsOf 2%N (cron (scheduleAll future_only restart)) = [] ∧
   jobs (scheduleAll future_only restart) !! 2%N = None).
Proof.
  assert (startup restart) as Hstart by (split; reflexivity).
  assert (NoDup (Message.ID <$> messages restart)) as Hnd.
  { simpl. apply NoDup_cons. split.
    - intros H. apply list_elem_of_singleton in H. discriminate.
    - apply NoDup_singleton. }
  assert (∀ m t, m ∈ messages restart → Message.PostponedAt m = Some t →
                 clock restart ≤ t → future_only (clock restart) t = true) as Hadm.
  { intros m t Hm Hp Hle. simpl in Hm.
    apply elem_of_cons in Hm as [->|Hm].
    - injection Hp as <-. reflexivity.
    - apply list_elem_of_singleton in Hm. subst m. injection Hp as <-.
      exfalso. revert Hle. vm_compute. intros H. by apply H. }
  split.
  - apply (scheduleAll_recovers future_only restart Hstart Hnd eq_refl Hadm nightly 20).
    + left.
    + reflexivity.
    + vm_compute. discriminate.
  - apply (scheduleAll_recovers future_only restart Hstart Hnd eq_refl Hadm overdue 5).
    + right. left.
    + reflexivity.
    + reflexivity.
Defined.

(** The restarted process: message 1 (due at 20) has its job again, the
    overdue message 2 has none. *)
Lemma restart_example :
  let w' := Init future_only 10 [nightly; overdue] [backup_app] [] in
  gocron.pending (cron w') = [nightly_job] ∧
  jobs w' !! 1%N = Some 0%N ∧
  jobs w' !! 2%N = None ∧
  stdout w' = [].
Proof. repeat split. Qed.

(** * Further properties of the scheduler *)

(** ** Lists of jobs *)

Lemma filter_all {A : Type} (P : A → Prop) `{∀ x, Decision (P x)} (l : list A) :
  (∀ x, x ∈ l → P x) → filter P l = l.
Proof.
  induction l as [|a l IH]; intros Hall; [done|].
  rewrite filter_cons_True by (apply Hall; left).
  f_equal. apply IH. intros x Hx. apply Hall. by right.
Qed.

Lemma filter_filter_keep {A : Type} (P Q : A → Prop)
    `{∀ x, Decision (P x)} `{∀ x, Decision (Q x)} (l : list A) :
  (∀ x, x ∈ l → Q x → P x) → filter Q (filter P l) = filter Q l.
Proof.
  induction l as [|a l IH]; intros Hall; [done|].
  assert (filter Q (filter P l) = filter Q l) as IH'
    by (apply IH; intros x Hx; apply Hall; by right).
  destruct (decide (Q a)) as [Hq|Hq].
  - rewrite (filter_cons_True P) by (apply Hall; [left|done]).
    rewrite !(filter_cons_True Q) by done. by rewrite IH'.
  - rewrite (filter_cons_False Q a l) by done.
    destruct (decide (P a)).
    + rewrite (filter_cons_True P) by done. by rewrite (filter_cons_False Q).
    + by rewrite (filter_cons_False P).
Qed.

Lemma jobsOf_RemoveJob_elem (id : uint) (u : UUID) (s : gocron.Scheduler) (j : gocron.Job) :
  j ∈ gocron.jobsOf id (gocron.RemoveJob u s) → j ∈ gocron.jobsOf id s ∧ gocron.ID j ≠ u.
Proof.
  unfold gocron.jobsOf, gocron.RemoveJob. simpl.
  intros [Ht [Hne Hj]%list_elem_of_filter]%list_elem_of_filter.
  split; [|done]. by apply list_elem_of_filter.
Qed.

(** ** Cancelling, once more *)

Lemma DeleteMessageSchedule_cron (message : Message.t) (w : World) :
  cron (DeleteMessageSchedule message w)
  = match jobs w !! Message.ID message with
    | Some jobId => gocron.RemoveJob jobId (cron w)
    | None => cron w
    end.
Proof. unfold DeleteMessageSchedule. by destruct (jobs w !! Message.ID message). Qed.

Lemma DeleteMessageSchedule_pending_elem (message : Message.t) (w : World) (j : gocron.Job) :
  j ∈ gocron.pending (cron (DeleteMessageSchedule message w)) →
  j ∈ gocron.pending (cron w).
Proof.
  rewrite DeleteMessageSchedule_cron.
  destruct (jobs w !! Message.ID message); [|done].
  simpl. by intros [_ ?]%list_elem_of_filter.
Qed.

Lemma cleared_DeleteMessageSchedule (message : Message.t) (w : World) :
  coherent w → cleared (Message.ID message) (DeleteMessageSchedule message w).
Proof.
  intros (_ & _ & Hreg). split.
  - rewrite DeleteMessageSchedule_registry. apply lookup_delete_eq.
  - apply elem_of_nil_inv. intros j Hj.
    rewrite DeleteMessageSchedule_cron in Hj.
    destruct (jobs w !! Message.ID message) as [u|] eqn:E.
    + apply jobsOf_RemoveJob_elem in Hj as [Hj Hne].
      apply list_elem_of_filter in Hj as [Ht Hj].
      specialize (Hreg j Hj). rewrite Ht, E in Hreg. by injection Hreg as ->.
    + apply list_elem_of_filter in Hj as [Ht Hj].
      specialize (Hreg j Hj). rewrite Ht, E in Hreg. done.
Qed.

Lemma cleared_kept_by_DeleteMessageSchedule (id : uint) (message : Message.t) (w : World) :
  cleared id w → cleared id (DeleteMessageSchedule message w).
Proof.
  intros [Hnone Hnil]. split.
  - rewrite DeleteMessageSchedule_registry.
    apply lookup_delete_None. by right.
  - apply elem_of_nil_inv. intros j Hj.
    apply list_elem_of_filter in Hj as [Ht Hj].
    apply DeleteMessageSchedule_pending_elem in Hj.
    assert (j ∈ gocron.jobsOf id (cron w)) as Hin by (by apply list_elem_of_filter).
    rewrite Hnil in Hin. by apply elem_of_nil in Hin.
Qed.

Lemma others_kept_by_DeleteMessageSchedule (id : uint) (message : Message.t) (w : World) :
  coherent w → registry_sound w → id ≠ Message.ID message →
  jobs (DeleteMessageSchedule message w) !! id = jobs w !! id ∧
  gocron.jobsOf id (cron (DeleteMessageSchedule message w)) = gocron.jobsOf id (cron w).
Proof.
  intros (_ & _ & Hreg) [_ Hown] Hne. split.
  - rewrite DeleteMessageSchedule_registry. by apply lookup_delete_ne.
  - rewrite DeleteMessageSchedule_cron.
    destruct (jobs w !! Message.ID message) as [u|] eqn:E; [|done].
    unfold gocron.jobsOf, gocron.RemoveJob. simpl.
    apply filter_filter_keep. intros j Hj Ht Hu.
    apply Hne. rewrite <- Ht. apply (Hown j); [done|]. by rewrite Hu.
Qed.

(** X1: from a state in which the engine and the registry agree, cancelling
    a message leaves it without registry entry and without pending timer. *)
Theorem cancel_clears_message (message : Message.t) (w : World) :
  coherent w →
  let w' := DeleteMessageSchedule message w in
  jobs w' !! Message.ID message = None ∧
  gocron.jobsOf (Message.ID message) (cron w') = [].
Proof. intros Hc. by apply cleared_DeleteMessageSchedule. Qed.

(** X2: cancelling a message touches no other message: the registry entry
    and the pending timers of every other identifier are as before. *)
Theorem cancel_spares_other_messages (id : uint) (message : Message.t) (w : World) :
  coherent w → registry_sound w → id ≠ Message.ID message →
  let w' := DeleteMessageSchedule message w in
  jobs w' !! id = jobs w !! id ∧
  gocron.jobsOf id (cron w') = gocron.jobsOf id (cron w).
Proof. intros Hc Hs Hne. by apply others_kept_by_DeleteMessageSchedule. Qed.

(** X3: cancelling is idempotent: a second cancel of the same message finds
    no entry and changes nothing. *)
Theorem cancel_twice_is_cancel_once (message : Message.t) (w : World) :
  DeleteMessageSchedule message (DeleteMessageSchedule message w)
  = DeleteMessageSchedule message w.
Proof.
  unfold DeleteMessageSchedule at 1.
  rewrite DeleteMessageSchedule_registry, lookup_delete_eq. done.
Qed.

(** ** Registry entries name the jobs of their own message *)

Lemma sound_shrink (w w' : World) :
  gocron.next_id (cron w') = gocron.next_id (cron w) →
  (∀ j, j ∈ gocron.pending (cron w') → j ∈ gocron.pending (cron w)) →
  (∀ id u, jobs w' !! id = Some u → jobs w !! id = Some u) →
  registry_sound w → registry_sound w'.
Proof.
  intros Hn Hp Hj [Hlt Hown]. split.
  - intros id u Hu. rewrite Hn. eauto.
  - intros j id Hin Hu. eauto.
Qed.

Lemma sound_frame (w w' : World) :
  cron w' = cron w → jobs w' = jobs w → registry_sound w → registry_sound w'.
Proof. intros Hc Hj. apply sound_shrink; rewrite ?Hc, ?Hj; done. Qed.

Lemma sound_startup (w : World) : startup w → registry_sound w.
Proof.
  intros [Hj Hp]. split.
  - intros id u. rewrite Hj, lookup_empty. done.
  - intros j id. rewrite Hp. intros H. by apply elem_of_nil in H.
Qed.

Lemma sound_left_pending (job : gocron.Job) (w : World) :
  registry_sound w → registry_sound (left_pending job w).
Proof.
  apply sound_shrink; simpl; [done| |done].
  by intros j [_ ?]%list_elem_of_filter.
Qed.

Lemma sound_DeleteMessageSchedule (message : Message.t) (w : World) :
  registry_sound w → registry_sound (DeleteMessageSchedule message w).
Proof.
  apply sound_shrink.
  - rewrite DeleteMessageSchedule_cron. by destruct (jobs w !! Message.ID message).
  - apply DeleteMessageSchedule_pending_elem.
  - intros id u. rewrite DeleteMessageSchedule_registry.
    by intros [_ ?]%lookup_delete_Some.
Qed.

Lemma sound_ScheduleMessage (admits : Time → Time → bool) (msgId : uint)
    (postponedAt : Time) (w : World) :
  coherent w → registry_sound w →
  registry_sound (ScheduleMessage admits msgId postponedAt w).
Proof.
  intros (_ & Hbelow & _) [Hlt Hown].
  destruct (admits (clock w) postponedAt) eqn:Hadm.
  - rewrite (ScheduleMessage_accepted _ _ _ _ Hadm). split; simpl.
    + intros id u. destruct (decide (msgId = id)) as [->|Hne].
      * rewrite lookup_insert_eq. intros [= <-]. lia.
      * rewrite lookup_insert_ne by done. intros Hu. specialize (Hlt id u Hu). lia.
    + intros j id [Hj| ->%list_elem_of_singleton]%elem_of_app; simpl.
      * destruct (decide (msgId = id)) as [->|Hne].
        -- rewrite lookup_insert_eq. intros [= Heq].
           specialize (Hbelow j Hj). lia.
        -- rewrite lookup_insert_ne by done. by apply Hown.
      * destruct (decide (msgId = id)) as [->|Hne]; [done|].
        rewrite lookup_insert_ne by done. intros Hu.
        specialize (Hlt id _ Hu). lia.
  - unfold ScheduleMessage, gocron.NewJob. rewrite Hadm. by apply (sound_frame w).
Qed.

Lemma sound_store_call (w : World) : registry_sound w → registry_sound (store_call w).2.
Proof.
  destruct (store_call_frame w) as (_ & _ & _ & Hc & Hj & _).
  by apply (sound_frame w).
Qed.

Lemma sound_cancel_all (found : list Message.t) (w : World) :
  registry_sound w →
  registry_sound (foldl (λ w' message, DeleteMessageSchedule message w') w found).
Proof.
  revert w. induction found as [|m l IH]; intros w Hs; simpl; [done|].
  apply IH. by apply sound_DeleteMessageSchedule.
Qed.

Lemma sound_cancel_application (appID : uint) (w : World) :
  registry_sound w → registry_sound (DeleteMessagesScheduleByApplication appID w).
Proof.
  intros Hs. unfold DeleteMessagesScheduleByApplication, Find_by_application.
  pose proof (sound_store_call w Hs) as Hs1.
  destruct (store_call w) as [[e|] w1]; simpl in *; [done|by apply sound_cancel_all].
Qed.

Lemma sound_cancel_user (userID : uint) (w : World) :
  registry_sound w → registry_sound (DeleteMessagesScheduleByUser userID w).
Proof.
  intros Hs. unfold DeleteMessagesScheduleByUser, GetApplicationsByUser.
  pose proof (sound_store_call w Hs) as Hs1.
  destruct (store_call w) as [[e|] w1]; simpl in *; [done|].
  generalize (filter (λ a, Application.UserID a = userID) (applications w1)).
  intros apps. revert w1 Hs1.
  induction apps as [|a l IH]; intros w1 Hs1; simpl; [done|].
  apply IH. by apply sound_cancel_application.
Qed.

Lemma sound_task (json_Unmarshal : list Byte.byte → option (list (string * JSON)))
    (msgId : uint) (w : World) :
  registry_sound w → registry_sound (after (task json_Unmarshal msgId w)).
Proof.
  intros Hs. unfold task.
  pose proof (First_by_id_world msgId w) as Hw.
  pose proof (sound_store_call w Hs) as Hs1.
  destruct (First_by_id msgId w) as [[m|err] w1]; simpl in *; subst w1.
  - apply (sound_frame (DeleteMessageSchedule m (store_call w).2)); try done.
    by apply sound_DeleteMessageSchedule.
  - by apply (sound_frame (store_call w).2).
Qed.

Lemma sound_step (admits : Time → Time → bool)
    (json_Unmarshal : list Byte.byte → option (list (string * JSON))) (w w' : World) :
  step admits json_Unmarshal w w' → coherent w → registry_sound w → registry_sound w'.
Proof.
  intros Hstep Hc Hs.
  destruct Hstep as [msgId at_ w Hnone|msg at_ w|msg w|appID w|userID w
                     |job w o Hf|d w|msgs apps fs w].
  - by apply sound_ScheduleMessage.
  - apply sound_ScheduleMessage.
    + by apply coherent_DeleteMessageSchedule.
    + by apply sound_DeleteMessageSchedule.
  - by apply sound_DeleteMessageSchedule.
  - by apply sound_cancel_application.
  - by apply sound_cancel_user.
  - unfold fire in Hf. case_decide; [|done]. injection Hf as <-.
    by apply sound_task, sound_left_pending.
  - by apply (sound_frame w).
  - by apply (sound_frame w).
Qed.

(** X4: along every run of cancel-then-schedule, schedule of a message
    without entry, cancel, cascade cancel, fire, clock and store steps, a
    registry entry never names a job the engine has not handed out, and an
    entry that names a pending job belongs to the message of that job. *)
Theorem registry_names_own_jobs (admits : Time → Time → bool)
    (json_Unmarshal : list Byte.byte → option (list (string * JSON))) (w w' : World) :
  coherent w → registry_sound w →
  rtc (step admits json_Unmarshal) w w' →
  registry_sound w'.
Proof.
  intros Hc Hs Hrun.
  induction Hrun as [|w w1 w2 Hstep _ IH]; [done|].
  apply IH.
  - by eapply coherent_step.
  - by eapply sound_step.
Qed.

Lemma registry_names_own_jobs_witness :
  registry_sound
    (DeleteMessageSchedule nightly (ScheduleMessage future_only 1%N 20 morning)).
Proof.
  apply (registry_names_own_jobs future_only no_extras_in morning).
  - apply coherent_startup. split; reflexivity.
  - apply sound_startup. split; reflexivity.
  - eapply rtc_l.
    + apply (step_schedule future_only no_extras_in 1%N 20 morning). reflexivity.
    + apply rtc_once. apply (step_cancel future_only no_extras_in nightly).
Defined.

Lemma coherent_scheduled : coherent scheduled.
Proof.
  apply coherent_ScheduleMessage; [|reflexivity].
  apply coherent_startup. split; reflexivity.
Qed.

Lemma coherent_busy : coherent busy.
Proof.
  apply coherent_ScheduleMessage; [|reflexivity].
  apply coherent_ScheduleMessage; [|reflexivity].
  apply coherent_startup. split; reflexivity.
Qed.

Lemma sound_busy : registry_sound busy.
Proof.
  apply sound_ScheduleMessage.
  - apply coherent_ScheduleMessage; [|reflexivity].
    apply coherent_startup. split; reflexivity.
  - apply sound_ScheduleMessage.
    + apply coherent_startup. split; reflexivity.
    + apply sound_startup. split; reflexivity.
Qed.

Lemma cancel_clears_message_witness :
  jobs (DeleteMessageSchedule nightly scheduled) !! Message.ID nightly = None ∧
  gocron.jobsOf (Message.ID nightly) (cron (DeleteMessageSchedule nightly scheduled)) = [].
Proof. apply (cancel_clears_message nightly scheduled). apply coherent_scheduled. Defined.

Lemma cancel_spares_other_messages_witness :
  jobs (DeleteMessageSchedule nightly busy) !! 3%N = jobs busy !! 3%N ∧
  gocron.jobsOf 3%N (cron (DeleteMessageSchedule nightly busy))
  = gocron.jobsOf 3%N (cron busy).
Proof.
  apply (cancel_spares_other_messages 3%N nightly busy).
  - apply coherent_busy.
  - apply sound_busy.
  - discriminate.
Defined.

(** ** Scheduling, once more *)

Section MoreScheduleFacts.

Variable admits : Time → Time → bool.

Lemma no_entry_no_job (msgId : uint) (w : World) :
  coherent w → jobs w !! msgId = None → gocron.jobsOf msgId (cron w) = [].
Proof.
  intros (_ & _ & Hreg) Hnone. apply elem_of_nil_inv. intros j Hj.
  apply list_elem_of_filter in Hj as [Ht Hj].
  specialize (Hreg j Hj). rewrite Ht, Hnone in Hreg. done.
Qed.

Lemma others_kept_by_ScheduleMessage (id msgId : uint) (postponedAt : Time) (w : World) :
  id ≠ msgId →
  jobs (ScheduleMessage admits msgId postponedAt w) !! id = jobs w !! id ∧
  gocron.jobsOf id (cron (ScheduleMessage admits msgId postponedAt w))
  = gocron.jobsOf id (cron w).
Proof.
  intros Hne. destruct (admits (clock w) postponedAt) eqn:Hadm.
  - rewrite (jobsOf_ScheduleMessage_accepted _ _ _ _ _ Hadm), decide_False by done.
    rewrite app_nil_r. split; [|done].
    rewrite (ScheduleMessage_accepted _ _ _ _ Hadm). simpl.
    by apply lookup_insert_ne.
  - unfold ScheduleMessage, gocron.NewJob. by rewrite Hadm.
Qed.

(** X5: scheduling a message touches no other message: the registry entry
    and the pending timers of every other identifier are as before, whether
    the engine takes the job or not. *)
Theorem schedule_spares_other_messages (id msgId : uint) (postponedAt : Time) (w : World) :
  id ≠ msgId →
  let w' := ScheduleMessage admits msgId postponedAt w in
  jobs w' !! id = jobs w !! id ∧
  gocron.jobsOf id (cron w') = gocron.jobsOf id (cron w).
Proof. intros Hne. by apply others_kept_by_ScheduleMessage. Qed.

(** X6: when the engine and the registry agree, the message has no entry
    and the engine takes the job, ScheduleMessage leaves the message with
    exactly one pending timer, set to the instant asked for and named by the
    new registry entry. *)
Theorem schedule_registers_one_job (msgId : uint) (postponedAt : Time) (w : World) :
  coherent w →
  jobs w !! msgId = None →
  admits (clock w) postponedAt = true →
  let w' := ScheduleMessage admits msgId postponedAt w in
  ∃ job,
    gocron.jobsOf msgId (cron w') = [job] ∧
    gocron.StartDateTime job = postponedAt ∧
    gocron.Task job = msgId ∧
    jobs w' !! msgId = Some (gocron.ID job).
Proof.
  intros Hc Hnone Hadm.
  exists (gocron.mkJob (gocron.next_id (cron w)) postponedAt msgId). simpl.
  rewrite (jobsOf_ScheduleMessage_accepted _ _ _ _ _ Hadm), decide_True by done.
  rewrite (no_entry_no_job _ _ Hc Hnone).
  repeat split; try done.
  rewrite (ScheduleMessage_accepted _ _ _ _ Hadm). simpl. apply lookup_insert_eq.
Qed.

(** X7: when every pending job carries an identifier below the engine's
    counter (the engine hands out fresh identifiers) and the message has no
    registry entry, scheduling the message and cancelling it again gives
    back the registry and the pending jobs as they were, whether the engine
    took the job or not. *)
Theorem schedule_then_cancel_restores (message : Message.t) (postponedAt : Time)
    (w : World) :
  (∀ j, j ∈ gocron.pending (cron w) → (gocron.ID j < gocron.next_id (cron w))%N) →
  jobs w !! Message.ID message = None →
  let w' := DeleteMessageSchedule message
              (ScheduleMessage admits (Message.ID message) postponedAt w) in
  jobs w' = jobs w ∧ gocron.pending (cron w') = gocron.pending (cron w).
Proof.
  intros Hbelow Hnone. simpl.
  rewrite DeleteMessageSchedule_registry, DeleteMessageSchedule_cron.
  destruct (admits (clock w) postponedAt) eqn:Hadm.
  - rewrite (ScheduleMessage_accepted _ _ _ _ Hadm). simpl.
    rewrite lookup_insert_eq. simpl. split.
    + by apply delete_insert_id.
    + rewrite filter_app.
      rewrite (filter_cons_False _ (gocron.mkJob _ _ _)) by (simpl; intros H; by apply H).
      rewrite filter_nil, app_nil_r.
      apply filter_all. intros j Hj Heq. specialize (Hbelow j Hj). lia.
  - unfold ScheduleMessage, gocron.NewJob. rewrite Hadm. simpl.
    rewrite Hnone. split; [|done]. by apply delete_id.
Qed.

End MoreScheduleFacts.

Lemma schedule_spares_other_messages_witness :
  jobs (ScheduleMessage future_only 3%N 40 scheduled) !! 1%N = jobs scheduled !! 1%N ∧
  gocron.jobsOf 1%N (cron (ScheduleMessage future_only 3%N 40 scheduled))
  = gocron.jobsOf 1%N (cron scheduled).
Proof.
  apply (schedule_spares_other_messages future_only 1%N 3%N 40 scheduled).
  discriminate.
Defined.

Lemma schedule_registers_one_job_witness :
  ∃ job,
    gocron.jobsOf 3%N (cron (ScheduleMessage future_only 3%N 40 scheduled)) = [job] ∧
    gocron.StartDateTime job = 40 ∧
    gocron.Task job = 3%N ∧
    jobs (ScheduleMessage future_only 3%N 40 scheduled) !! 3%N = Some (gocron.ID job).
Proof.
  apply (schedule_registers_one_job future_only 3%N 40 scheduled).
  - apply coherent_scheduled.
  - reflexivity.
  - reflexivity.
Defined.

Lemma schedule_then_cancel_restores_witness :
  jobs (DeleteMessageSchedule report
          (ScheduleMessage future_only (Message.ID report) 40 scheduled))
  = jobs scheduled ∧
  gocron.pending (cron (DeleteMessageSchedule report
                          (ScheduleMessage future_only (Message.ID report) 40 scheduled)))
  = gocron.pending (cron scheduled).
Proof.
  apply (schedule_then_cancel_restores future_only report 40 scheduled).
  - intros j Hj. simpl in Hj. apply list_elem_of_singleton in Hj. by subst j.
  - reflexivity.
Defined.

(** ** What the scheduler leaves alone *)

Lemma untouched_refl (w : World) : untouched w w.
Proof. by repeat split. Qed.

Lemma untouched_trans (w1 w2 w3 : World) :
  untouched w1 w2 → untouched w2 w3 → untouched w1 w3.
Proof.
  intros (H1 & H2 & H3 & H4) (H1' & H2' & H3' & H4').
  repeat split; congruence.
Qed.

Lemma untouched_foldl {A : Type} (f : World → A → World) (l : list A) (w : World) :
  (∀ w' a, untouched w' (f w' a)) → untouched w (foldl f w l).
Proof.
  intros Hf. revert w. induction l as [|a l IH]; intros w; simpl.
  - apply untouched_refl.
  - eapply untouched_trans; [apply Hf|apply IH].
Qed.

Lemma untouched_store_call (w : World) : untouched w (store_call w).2.
Proof.
  destruct (store_call_frame w) as (H1 & H2 & H3 & _ & _ & H4 & _).
  by repeat split.
Qed.

Lemma untouched_DeleteMessageSchedule (message : Message.t) (w : World) :
  untouched w (DeleteMessageSchedule message w).
Proof.
  destruct (DeleteMessageSchedule_frame message w) as (H1 & H2 & H3 & _ & H4 & _).
  by repeat split.
Qed.

Lemma untouched_ScheduleMessage (admits : Time → Time → bool) (msgId : uint)
    (postponedAt : Time) (w : World) :
  untouched w (ScheduleMessage admits msgId postponedAt w).
Proof.
  destruct (ScheduleMessage_frame admits msgId postponedAt w) as (H1 & H2 & H3 & _ & H4).
  by repeat split.
Qed.

Lemma untouched_cancel_application (appID : uint) (w : World) :
  untouched w (DeleteMessagesScheduleByApplication appID w).
Proof.
  unfold DeleteMessagesScheduleByApplication, Find_by_application.
  pose proof (untouched_store_call w) as H.
  destruct (store_call w) as [[e|] w1]; simpl in *; [done|].
  eapply untouched_trans; [exact H|].
  apply untouched_foldl. intros. apply untouched_DeleteMessageSchedule.
Qed.

Lemma untouched_cancel_user (userID : uint) (w : World) :
  untouched w (DeleteMessagesScheduleByUser userID w).
Proof.
  unfold DeleteMessagesScheduleByUser, GetApplicationsByUser.
  pose proof (untouched_store_call w) as H.
  destruct (store_call w) as [[e|] w1]; simpl in *; [done|].
  eapply untouched_trans; [exact H|].
  apply untouched_foldl. intros. apply untouched_cancel_application.
Qed.

Lemma untouched_scheduleAll (admits : Time → Time → bool) (w : World) :
  untouched w (scheduleAll admits w).
Proof.
  unfold scheduleAll, Find_postponed.
  pose proof (untouched_store_call w) as H.
  destruct (store_call w) as [[e|] w1]; simpl in *; [done|].
  eapply untouched_trans; [exact H|].
  apply untouched_foldl. intros w' m.
  destruct (Message.PostponedAt m);
    [apply untouched_ScheduleMessage|apply untouched_refl].
Qed.

(** X8: scheduling, cancelling, the two cascade cancellations and the
    recovery at startup never write to the store and never call the dispatch
    sink: the messages, the applications and the deliveries are as before. *)
Theorem scheduler_calls_leave_store_and_sink (admits : Time → Time → bool)
    (msgId appID userID : uint) (postponedAt : Time) (message : Message.t) (w : World) :
  untouched w (ScheduleMessage admits msgId postponedAt w) ∧
  untouched w (DeleteMessageSchedule message w) ∧
  untouched w (DeleteMessagesScheduleByApplication appID w) ∧
  untouched w (DeleteMessagesScheduleByUser userID w) ∧
  untouched w (scheduleAll admits w).
Proof.
  split; [apply untouched_ScheduleMessage|].
  split; [apply untouched_DeleteMessageSchedule|].
  split; [apply untouched_cancel_application|].
  split; [apply untouched_cancel_user|apply untouched_scheduleAll].
Qed.

(** X9: the fire-time task never writes to the store, and it calls the
    dispatch sink at most once: either it returns after one delivery, or it
    panics after none. *)
Theorem task_reads_store_delivers_once
    (json_Unmarshal : list Byte.byte → option (list (string * JSON))) (msgId : uint) (w : World) :
  let o := task json_Unmarshal msgId w in
  messages (after o) = messages w ∧
  applications (after o) = applications w ∧
  ((∃ w' d, o = Returned w' ∧ delivered w' = delivered w ++ [d]) ∨
   (∃ w' err, o = Panicked err w' ∧ delivered w' = delivered w)).
Proof.
  simpl. unfold task.
  pose proof (First_by_id_world msgId w) as Hw.
  destruct (untouched_store_call w) as (_ & Hm & Ha & Hd).
  destruct (First_by_id msgId w) as [[m|err] w1]; simpl in *; subst w1.
  - destruct (untouched_DeleteMessageSchedule m (store_call w).2) as (_ & Hm' & Ha' & Hd').
    split; [by rewrite Hm', Hm|]. split; [by rewrite Ha', Ha|].
    left. eexists _, _. split; [reflexivity|]. simpl. by rewrite Hd', Hd.
  - split; [done|]. split; [done|].
    right. eexists _, _. split; [reflexivity|]. done.
Qed.

(** ** Firing and cancelling the same message *)

Section RaceFacts.

Variable json_Unmarshal : list Byte.byte → option (list (string * JSON)).

(** X10: after a job has fired and delivered its message, a cancel of that
    message finds no registry entry and changes nothing. *)
Theorem cancel_after_fire_is_noop (job : gocron.Job) (w : World) (m : Message.t) :
  job ∈ gocron.pending (cron w) →
  gocron.StartDateTime job ≤ clock w →
  (First_by_id (gocron.Task job) w).1 = Ok m →
  ∃ w', fire json_Unmarshal job w = Some (Returned w') ∧
        DeleteMessageSchedule m w' = w'.
Proof.
  intros Hin Hdue Hm.
  destruct (fire_found json_Unmarshal job w m Hin Hdue Hm) as (w' & Hf & _ & _ & Hj & _).
  exists w'. split; [done|]. unfold DeleteMessageSchedule. by rewrite Hj.
Qed.

(** X11: when the engine and the registry agree, a cancelled message is
    never delivered by a job of its own: after the cancel no such job fires,
    however much time passes. *)
Theorem no_fire_after_cancel (job : gocron.Job) (message : Message.t) (w : World) (d : Z) :
  coherent w →
  gocron.Task job = Message.ID message →
  fire json_Unmarshal job (tick d (DeleteMessageSchedule message w)) = None.
Proof.
  intros Hc Ht. unfold fire. rewrite decide_False; [done|].
  intros [Hin _]. simpl in Hin.
  destruct (cleared_DeleteMessageSchedule message w Hc) as [_ Hnil].
  assert (job ∈ gocron.jobsOf (Message.ID message)
                  (cron (DeleteMessageSchedule message w))) as Hjob
    by (by apply list_elem_of_filter).
  rewrite Hnil in Hjob. by apply elem_of_nil in Hjob.
Qed.

End RaceFacts.

Lemma cancel_after_fire_is_noop_witness :
  ∃ w', fire no_extras_in nightly_job noon = Some (Returned w') ∧
        DeleteMessageSchedule nightly w' = w'.
Proof.
  apply (cancel_after_fire_is_noop no_extras_in nightly_job noon nightly).
  - vm_compute. left.
  - vm_compute. discriminate.
  - reflexivity.
Defined.

Lemma no_fire_after_cancel_witness :
  fire no_extras_in nightly_job (tick 10 (DeleteMessageSchedule nightly scheduled)) = None.
Proof.
  apply (no_fire_after_cancel no_extras_in nightly_job nightly scheduled 10).
  - apply coherent_scheduled.
  - reflexivity.
Defined.

(** ** Cascade cancellation, once more *)

Lemma cleared_frame (id : uint) (w w' : World) :
  cron w' = cron w → jobs w' = jobs w → cleared id w → cleared id w'.
Proof. unfold cleared. intros -> ->. done. Qed.

Lemma cancel_all_keeps_cleared (id : uint) (found : list Message.t) (w : World) :
  cleared id w →
  cleared id (foldl (λ w' message, DeleteMessageSchedule message w') w found).
Proof.
  revert w. induction found as [|m l IH]; intros w Hc; simpl; [done|].
  apply IH. by apply cleared_kept_by_DeleteMessageSchedule.
Qed.

Lemma cancel_all_clears (found : list Message.t) (w : World) (m : Message.t) :
  coherent w → m ∈ found →
  cleared (Message.ID m) (foldl (λ w' message, DeleteMessageSchedule message w') w found).
Proof.
  revert w. induction found as [|m0 l IH]; intros w Hc Hm; simpl.
  - by apply elem_of_nil in Hm.
  - apply elem_of_cons in Hm as [->|Hm].
    + apply cancel_all_keeps_cleared. by apply cleared_DeleteMessageSchedule.
    + apply IH; [|done]. by apply coherent_DeleteMessageSchedule.
Qed.

Lemma cancel_all_spares (id : uint) (found : list Message.t) (w : World) :
  coherent w → registry_sound w →
  (∀ m, m ∈ found → Message.ID m ≠ id) →
  let w' := foldl (λ w' message, DeleteMessageSchedule message w') w found in
  jobs w' !! id = jobs w !! id ∧ gocron.jobsOf id (cron w') = gocron.jobsOf id (cron w).
Proof.
  revert w. induction found as [|m0 l IH]; intros w Hc Hs Hne; simpl; [done|].
  destruct (IH (DeleteMessageSchedule m0 w)) as [-> ->].
  - by apply coherent_DeleteMessageSchedule.
  - by apply sound_DeleteMessageSchedule.
  - intros m Hm. apply Hne. by right.
  - apply others_kept_by_DeleteMessageSchedule; try done.
    intros Heq. apply (Hne m0); [left|done].
Qed.

Lemma cancel_application_keeps_cleared (id appID : uint) (w : World) :
  cleared id w → cleared id (DeleteMessagesScheduleByApplication appID w).
Proof.
  intros Hc. unfold DeleteMessagesScheduleByApplication, Find_by_application.
  destruct (store_call_frame w) as (_ & _ & _ & Hcr & Hj & _).
  pose proof (cleared_frame id w (store_call w).2 Hcr Hj Hc) as Hc1.
  destruct (store_call w) as [[e|] w1]; simpl in *; [done|].
  by apply cancel_all_keeps_cleared.
Qed.

Lemma cancel_application_clears (appID : uint) (w : World) (m : Message.t) :
  coherent w → (store_call w).1 = None →
  m ∈ messages w → Message.ApplicationID m = appID →
  cleared (Message.ID m) (DeleteMessagesScheduleByApplication appID w).
Proof.
  intros Hc Hok Hm Happ.
  unfold DeleteMessagesScheduleByApplication, Find_by_application.
  pose proof (coherent_store_call w Hc) as Hc1.
  destruct (store_call_frame w) as (_ & Hms & _).
  destruct (store_call w) as [e w1]. simpl in *. subst e.
  apply cancel_all_clears; [done|].
  apply list_elem_of_filter. by rewrite Hms.
Qed.

(** X12: when the engine and the registry agree and the store answers the
    listing, cancelling by application leaves every message of that
    application without registry entry and without pending timer. *)
Theorem cancel_by_application_clears_its_messages (appID : uint) (w : World)
    (m : Message.t) :
  coherent w →
  (store_call w).1 = None →
  m ∈ messages w →
  Message.ApplicationID m = appID →
  let w' := DeleteMessagesScheduleByApplication appID w in
  jobs w' !! Message.ID m = None ∧ gocron.jobsOf (Message.ID m) (cron w') = [].
Proof. intros Hc Hok Hm Happ. by apply cancel_application_clears. Qed.

Lemma others_kept_when_sound (id : uint) (message : Message.t) (w : World) :
  registry_sound w → id ≠ Message.ID message →
  jobs (DeleteMessageSchedule message w) !! id = jobs w !! id ∧
  gocron.jobsOf id (cron (DeleteMessageSchedule message w)) = gocron.jobsOf id (cron w).
Proof.
  intros [_ Hown] Hne. split.
  - rewrite DeleteMessageSchedule_registry. by apply lookup_delete_ne.
  - rewrite DeleteMessageSchedule_cron.
    destruct (jobs w !! Message.ID message) as [u|] eqn:E; [|done].
    unfold gocron.jobsOf, gocron.RemoveJob. simpl.
    apply filter_filter_keep. intros j Hj Ht Hu.
    apply Hne. rewrite <- Ht. apply (Hown j); [done|]. by rewrite Hu.
Qed.

Lemma cancel_all_spares_when_sound (id : uint) (found : list Message.t) (w : World) :
  registry_sound w →
  (∀ m, m ∈ found → Message.ID m ≠ id) →
  let w' := foldl (λ w' message, DeleteMessageSchedule message w') w found in
  jobs w' !! id = jobs w !! id ∧ gocron.jobsOf id (cron w') = gocron.jobsOf id (cron w).
Proof.
  revert w. induction found as [|m0 l IH]; intros w Hs Hne; simpl; [done|].
  destruct (IH (DeleteMessageSchedule m0 w)) as [-> ->].
  - by apply sound_DeleteMessageSchedule.
  - intros m Hm. apply Hne. by right.
  - apply others_kept_when_sound; [done|].
    intros Heq. apply (Hne m0); [left|done].
Qed.

(** X13: when no registry entry names a pending job of another message (and
    every entry names a job the engine has handed out), cancelling by
    application touches only the messages of that application: an
    identifier that none of its stored messages carries keeps its registry
    entry and its pending timers. *)
Theorem cancel_by_application_spares_others (appID id : uint) (w : World) :
  registry_sound w →
  (∀ m, m ∈ messages w → Message.ApplicationID m = appID → Message.ID m ≠ id) →
  let w' := DeleteMessagesScheduleByApplication appID w in
  jobs w' !! id = jobs w !! id ∧ gocron.jobsOf id (cron w') = gocron.jobsOf id (cron w).
Proof.
  intros Hs Hne. simpl.
  unfold DeleteMessagesScheduleByApplication, Find_by_application.
  pose proof (sound_store_call w Hs) as Hs1.
  destruct (store_call_frame w) as (_ & Hms & _ & Hcr & Hj & _).
  destruct (store_call w) as [[e|] w1]; simpl in *.
  - by rewrite Hcr, Hj.
  - rewrite <- Hcr, <- Hj. apply cancel_all_spares_when_sound; try done.
    intros m [Happ Hm]%list_elem_of_filter. apply Hne; [|done]. by rewrite <- Hms.
Qed.

Lemma store_call_healthy (w : World) : faults w = [] → store_call w = (None, w).
Proof. intros H. unfold store_call. by rewrite H. Qed.

Lemma cancel_application_faults (appID : uint) (w : World) :
  faults w = [] →
  faults (DeleteMessagesScheduleByApplication appID w) = [] ∧
  messages (DeleteMessagesScheduleByApplication appID w) = messages w.
Proof.
  intros Hf. split; [|apply untouched_cancel_application].
  unfold DeleteMessagesScheduleByApplication, Find_by_application.
  rewrite (store_call_healthy w Hf).
  generalize (filter (λ m, Message.ApplicationID m = appID) (messages w)).
  intros l. revert w Hf. induction l as [|m l IH]; intros w Hf; simpl; [done|].
  apply IH. destruct (DeleteMessageSchedule_frame m w) as (_ & _ & _ & -> & _). done.
Qed.

Lemma cancel_applications_keep_cleared (id : uint) (apps : list Application.t) (w : World) :
  cleared id w →
  cleared id (foldl (λ w' a, DeleteMessagesScheduleByApplication (Application.ID a) w')
                w apps).
Proof.
  revert w. induction apps as [|a l IH]; intros w Hc; simpl; [done|].
  apply IH. by apply cancel_application_keeps_cleared.
Qed.

(** X14: when the engine and the registry agree and the store is healthy,
    cancelling by user leaves every message of every application of that
    user without registry entry and without pending timer. *)
Theorem cancel_by_user_clears_their_messages (userID : uint) (w : World)
    (a : Application.t) (m : Message.t) :
  coherent w →
  faults w = [] →
  a ∈ applications w → Application.UserID a = userID →
  m ∈ messages w → Message.ApplicationID m = Application.ID a →
  let w' := DeleteMessagesScheduleByUser userID w in
  jobs w' !! Message.ID m = None ∧ gocron.jobsOf (Message.ID m) (cron w') = [].
Proof.
  intros Hc Hf Ha Hu Hm Happ. simpl.
  unfold DeleteMessagesScheduleByUser, GetApplicationsByUser.
  rewrite (store_call_healthy w Hf).
  assert (a ∈ filter (λ a, Application.UserID a = userID) (applications w)) as Hin
    by (by apply list_elem_of_filter).
  revert Hin. generalize (filter (λ a, Application.UserID a = userID) (applications w)).
  intros apps Hin. clear Ha. revert w Hc Hf Hm Hin.
  induction apps as [|a0 l IH]; intros w Hc Hf Hm Hin; simpl.
  - by apply elem_of_nil in Hin.
  - destruct (cancel_application_faults (Application.ID a0) w Hf) as [Hf' Hms'].
    apply elem_of_cons in Hin as [<-|Hin].
    + apply cancel_applications_keep_cleared.
      apply cancel_application_clears; try done.
      by rewrite (store_call_healthy w Hf).
    + apply IH; try done.
      * by apply coherent_cancel_application.
      * by rewrite Hms'.
Qed.

Lemma cancel_by_application_clears_its_messages_witness :
  jobs (DeleteMessagesScheduleByApplication 7%N busy) !! Message.ID nightly = None ∧
  gocron.jobsOf (Message.ID nightly)
    (cron (DeleteMessagesScheduleByApplication 7%N busy)) = [].
Proof.
  apply (cancel_by_application_clears_its_messages 7%N busy nightly).
  - apply coherent_busy.
  - reflexivity.
  - left.
  - reflexivity.
Defined.

Lemma cancel_by_application_spares_others_witness :
  jobs (DeleteMessagesScheduleByApplication 7%N busy) !! 3%N = jobs busy !! 3%N ∧
  gocron.jobsOf 3%N (cron (DeleteMessagesScheduleByApplication 7%N busy))
  = gocron.jobsOf 3%N (cron busy).
Proof.
  apply (cancel_by_application_spares_others 7%N 3%N busy).
  - apply sound_busy.
  - intros m Hm Happ. simpl in Hm.
    apply elem_of_cons in Hm as [->|Hm]; [discriminate|].
    apply list_elem_of_singleton in Hm. subst m. discriminate.
Defined.

Lemma cancel_by_user_clears_their_messages_witness :
  jobs (DeleteMessagesScheduleByUser 4%N busy) !! Message.ID report = None ∧
  gocron.jobsOf (Message.ID report) (cron (DeleteMessagesScheduleByUser 4%N busy)) = [].
Proof.
  apply (cancel_by_user_clears_their_messages 4%N busy report_app report).
  - apply coherent_busy.
  - reflexivity.
  - right. left.
  - reflexivity.
  - right. left.
  - reflexivity.
Defined.

(** ** Recovery at startup, once more *)

Section MoreRecoveryFacts.

Variable admits : Time → Time → bool.

#[local] Abbreviation recover' :=
  (λ (w' : World) (message : Message.t),
     match Message.PostponedAt message with
     | Some postponedAt => ScheduleMessage admits (Message.ID message) postponedAt w'
     | None => w'
     end).

Lemma recover_spares (id : uint) (l : list Message.t) (w : World) :
  id ∉ Message.ID <$> l →
  jobs (foldl recover' w l) !! id = jobs w !! id ∧
  gocron.jobsOf id (cron (foldl recover' w l)) = gocron.jobsOf id (cron w).
Proof.
  revert w. induction l as [|m0 l IH]; intros w Hid; simpl; [done|].
  apply not_elem_of_cons in Hid as [Hne Hid].
  destruct (IH (recover' w m0) Hid) as [-> ->].
  destruct (Message.PostponedAt m0); [|done].
  by apply others_kept_by_ScheduleMessage.
Qed.

Lemma ScheduleMessage_pending_elem (msgId : uint) (postponedAt : Time) (w : World)
    (j : gocron.Job) :
  j ∈ gocron.pending (cron (ScheduleMessage admits msgId postponedAt w)) →
  j ∈ gocron.pending (cron w) ∨
  (gocron.Task j = msgId ∧ gocron.StartDateTime j = postponedAt).
Proof.
  destruct (admits (clock w) postponedAt) eqn:Hadm.
  - rewrite (ScheduleMessage_accepted _ _ _ _ Hadm). simpl.
    intros [Hj| ->%list_elem_of_singleton]%elem_of_app; [by left|by right].
  - unfold ScheduleMessage, gocron.NewJob. rewrite Hadm. by left.
Qed.

Lemma recover_pending_elem (l : list Message.t) (w : World) (j : gocron.Job) :
  j ∈ gocron.pending (cron (foldl recover' w l)) →
  j ∈ gocron.pending (cron w) ∨
  ∃ m, m ∈ l ∧ Message.ID m = gocron.Task j ∧
       Message.PostponedAt m = Some (gocron.StartDateTime j).
Proof.
  revert w. induction l as [|m0 l IH]; intros w Hj; simpl in *; [by left|].
  destruct (IH _ Hj) as [Hj'|(m & Hm & Hid & Hp)].
  - destruct (Message.PostponedAt m0) as [t|] eqn:E; [|by left].
    apply ScheduleMessage_pending_elem in Hj' as [?|[Ht Hs]]; [by left|].
    right. exists m0. split; [left|]. split; [done|]. by rewrite E, Hs.
  - right. exists m. split; [by right|done].
Qed.

Lemma recover_agrees (l : list Message.t) (w : World) :
  NoDup (Message.ID <$> l) →
  coherent w → registry_sound w →
  (∀ m, m ∈ l → jobs w !! Message.ID m = None) →
  coherent (foldl recover' w l) ∧ registry_sound (foldl recover' w l).
Proof.
  revert w. induction l as [|m0 l IH]; intros w Hnd Hc Hs Hnone; simpl; [done|].
  apply NoDup_cons in Hnd as [Hfresh Hnd].
  assert (∀ m, m ∈ l → jobs (recover' w m0) !! Message.ID m = None) as Hnone'.
  { intros m Hm. destruct (Message.PostponedAt m0); [|apply Hnone; by right].
    destruct (others_kept_by_ScheduleMessage admits (Message.ID m) (Message.ID m0) t w)
      as [-> _].
    - intros Heq. apply Hfresh. rewrite <- Heq. by apply list_elem_of_fmap_2.
    - apply Hnone. by right. }
  apply IH; try done.
  - destruct (Message.PostponedAt m0); [|done].
    apply coherent_ScheduleMessage; [done|]. apply Hnone. left.
  - destruct (Message.PostponedAt m0); [|done]. by apply sound_ScheduleMessage.
Qed.

(** X15: after scheduleAll in a process that has just started, over
    messages with distinct identifiers, a message that was never postponed
    or whose postponement lies before the instant of the call has neither a
    registry entry nor a pending timer, whatever the store and the engine
    answer. *)
Theorem scheduleAll_skips_messages_not_due (w : World) (m : Message.t) :
  startup w →
  NoDup (Message.ID <$> messages w) →
  m ∈ messages w →
  ¬ postponed_from (clock w) m →
  let w' := scheduleAll admits w in
  jobs w' !! Message.ID m = None ∧ gocron.jobsOf (Message.ID m) (cron w') = [].
Proof.
  intros [Hjobs Hpend] Hnd Hm Hnot. simpl.
  unfold scheduleAll, Find_postponed.
  destruct (store_call_frame w) as (_ & Hms & _ & Hcr & Hj & _).
  assert (jobs (store_call w).2 !! Message.ID m = None ∧
          gocron.jobsOf (Message.ID m) (cron (store_call w).2) = []) as Hstart.
  { rewrite Hj, Hcr, Hjobs. unfold gocron.jobsOf. rewrite Hpend. by split. }
  destruct (store_call w) as [[e|] w1]; simpl in *; [done|].
  destruct (recover_spares (Message.ID m)
              (filter (postponed_from (clock w)) (messages w1)) w1) as [-> ->]; [|done].
  rewrite Hms.
  intros (m' & Heq & [Hdue Hm']%list_elem_of_filter)%list_elem_of_fmap.
  assert (m = m') as <- by (by apply (NoDup_fmap_elem_eq Message.ID (messages w))).
  done.
Qed.

(** X16: scheduleAll invents nothing: every job pending after the recovery
    of a process that has just started is the job of a stored message,
    starts at the postponedAt of that message, and that instant is not
    before the instant of the call. *)
Theorem scheduleAll_only_schedules_stored_postponements (w : World) (job : gocron.Job) :
  startup w →
  job ∈ gocron.pending (cron (scheduleAll admits w)) →
  ∃ m, m ∈ messages w ∧
       Message.ID m = gocron.Task job ∧
       Message.PostponedAt m = Some (gocron.StartDateTime job) ∧
       clock w ≤ gocron.StartDateTime job.
Proof.
  intros [_ Hpend]. unfold scheduleAll, Find_postponed.
  destruct (store_call_frame w) as (_ & Hms & _ & Hcr & _).
  destruct (store_call w) as [[e|] w1]; simpl in *.
  - rewrite Hcr, Hpend. intros H. by apply elem_of_nil in H.
  - intros [Hj|(m & [Hdue Hm]%list_elem_of_filter & Hid & Hp)]%recover_pending_elem.
    + rewrite Hcr, Hpend in Hj. by apply elem_of_nil in Hj.
    + exists m. rewrite <- Hms. repeat split; try done.
      unfold postponed_from in Hdue. by rewrite Hp in Hdue.
Qed.

(** X17: Init leaves the engine and the registry in agreement whenever the
    stored messages have distinct identifiers: job identifiers are distinct,
    every pending job is the one the registry names for its message, and no
    entry names a job of another message. *)
Theorem Init_engine_and_registry_agree (now : Time) (msgs : list Message.t)
    (apps : list Application.t) (fs : list (option Error)) :
  NoDup (Message.ID <$> msgs) →
  coherent (Init admits now msgs apps fs) ∧
  registry_sound (Init admits now msgs apps fs).
Proof.
  intros Hnd. unfold Init, scheduleAll, Find_postponed.
  set (w0 := mkWorld now msgs apps fs gocron.NewScheduler ∅ [] []).
  assert (startup w0) as Hstart by (split; reflexivity).
  pose proof (coherent_store_call w0 (coherent_startup w0 Hstart)) as Hc.
  pose proof (sound_store_call w0 (sound_startup w0 Hstart)) as Hs.
  destruct (store_call_frame w0) as (_ & Hms & _ & _ & Hj & _).
  destruct (store_call w0) as [[e|] w1]; simpl in *; [done|].
  apply recover_agrees; try done.
  - eapply sublist_NoDup; [exact Hnd|]. rewrite Hms.
    apply fmap_sublist, sublist_filter.
  - intros m _. rewrite Hj. apply lookup_empty.
Qed.

End MoreRecoveryFacts.

Lemma scheduleAll_skips_messages_not_due_witness :
  jobs (scheduleAll future_only restart) !! Message.ID overdue = None ∧
  gocron.jobsOf (Message.ID overdue) (cron (scheduleAll future_only restart)) = [].
Proof.
  apply (scheduleAll_skips_messages_not_due future_only restart overdue).
  - split; reflexivity.
  - simpl. apply NoDup_cons. split.
    + intros H. apply list_elem_of_singleton in H. discriminate.
    + apply NoDup_singleton.
  - right. left.
  - vm_compute. intros H. by apply H.
Defined.

Lemma scheduleAll_only_schedules_stored_postponements_witness :
  ∃ m, m ∈ messages restart ∧
       Message.ID m = gocron.Task nightly_job ∧
       Message.PostponedAt m = Some (gocron.StartDateTime nightly_job) ∧
       clock restart ≤ gocron.StartDateTime nightly_job.
Proof.
  apply (scheduleAll_only_schedules_stored_postponements future_only restart nightly_job).
  - split; reflexivity.
  - vm_compute. left.
Defined.

Lemma Init_engine_and_registry_agree_witness :
  coherent (Init future_only 10 [nightly; overdue] [backup_app] []) ∧
  registry_sound (Init future_only 10 [nightly; overdue] [backup_app] []).
Proof.
  apply (Init_engine_and_registry_agree future_only 10 [nightly; overdue] [backup_app] []).
  simpl. apply NoDup_cons. split.
  - intros H. apply list_elem_of_singleton in H. discriminate.
  - apply NoDup_singleton.
Defined.

(** * Further properties of the handlers *)

Lemma quiet_refl (w : World) : quiet w w.
Proof. by repeat split. Qed.

Lemma quiet_trans (w1 w2 w3 : World) : quiet w1 w2 → quiet w2 w3 → quiet w1 w3.
Proof.
  intros (H1 & H2 & H3 & H4) (H1' & H2' & H3' & H4'). repeat split; congruence.
Qed.

Lemma quiet_store_call (w : World) : quiet w (store_call w).2.
Proof.
  destruct (store_call_frame w) as (H1 & _ & _ & H2 & H3 & H4 & _). by repeat split.
Qed.

Lemma GetMessageByID_world (id : uint) (w : World) :
  (GetMessageByID id w).2 = (store_call w).2.
Proof. unfold GetMessageByID. by destruct (store_call w) as [[e|] w1]. Qed.

Lemma GetApplicationByID_world (id : uint) (w : World) :
  (GetApplicationByID id w).2 = (store_call w).2.
Proof. unfold GetApplicationByID. by destruct (store_call w) as [[e|] w1]. Qed.

Lemma GetApplicationByToken_world (token : string) (w : World) :
  (GetApplicationByToken token w).2 = (store_call w).2.
Proof. unfold GetApplicationByToken. by destruct (store_call w) as [[e|] w1]. Qed.

Lemma quiet_UpdateMessagePostponement (id : uint) (p : option Time) (w : World) :
  quiet w (UpdateMessagePostponement id p w).2.
Proof.
  unfold UpdateMessagePostponement. pose proof (quiet_store_call w) as H.
  by destruct (store_call w) as [[e|] w1].
Qed.

Lemma quiet_DeleteMessageByID (id : uint) (w : World) :
  quiet w (DeleteMessageByID id w).2.
Proof.
  unfold DeleteMessageByID. pose proof (quiet_store_call w) as H.
  by destruct (store_call w) as [[e|] w1].
Qed.

Lemma quiet_DB_CreateMessage (message : Message.t) (w : World) :
  quiet w (DB_CreateMessage message w).2.
Proof.
  unfold DB_CreateMessage. pose proof (quiet_store_call w) as H.
  by destruct (store_call w) as [[e|] w1].
Qed.

Lemma quiet_coherent (w w' : World) : quiet w w' → coherent w → coherent w'.
Proof. intros (Hj & Hc & _). by apply coherent_frame. Qed.

Lemma quiet_cleared (id : uint) (w w' : World) : quiet w w' → cleared id w → cleared id w'.
Proof. intros (Hj & Hc & _). by apply cleared_frame. Qed.

Lemma looked_up_quiet (ctx : Context) (w : World) (msg : Message.t)
    (app : option Application.t) (w2 : World) :
  looked_up ctx w msg app w2 → quiet w w2.
Proof.
  intros (id & w1 & _ & Hm & Ha).
  pose proof (GetMessageByID_world id w) as H1. rewrite Hm in H1. simpl in H1.
  pose proof (GetApplicationByID_world (Message.ApplicationID msg) w1) as H2.
  rewrite Ha in H2. simpl in H2. subst.
  eapply quiet_trans; apply quiet_store_call.
Qed.

Section HandlerFacts.

Variable admits : Time → Time → bool.
Variable json_Marshal : list (string * JSON) → list Byte.byte.
Variable json_Unmarshal : list Byte.byte → option (list (string * JSON)).

(** What postponeMessage does once the lookups have succeeded and the
    requester owns the application. *)
Lemma postponeMessage_owned (ctx : Context) (postponedAt : option Time) (w w2 : World)
    (msg : Message.t) (app : option Application.t) :
  looked_up ctx w msg app w2 →
  Application.UserID <$> app = Some (auth_UserID ctx) →
  ∃ id,
    postponeMessage admits ctx postponedAt w
    = (let w3 := DeleteMessageSchedule msg w2 in
       let w4 := match postponedAt with
                 | Some at_ => ScheduleMessage admits (Message.ID msg) at_ w3
                 | None => w3
                 end in
       let (err, w5) := UpdateMessagePostponement id postponedAt w4 in
       (successOrAbort err, w5)).
Proof.
  intros (id & w1 & Hid & Hm & Ha) Hown. exists id.
  unfold postponeMessage. rewrite Hid, Hm, Ha. by rewrite decide_True.
Qed.

(** X18: a requester who does not own the application of a message can
    neither postpone, un-postpone nor delete it: each handler answers 404
    and leaves the registry, the engine and the dispatch sink as they were. *)
Theorem foreign_message_is_out_of_reach (ctx : Context) (postponedAt : option Time)
    (w w2 : World) (msg : Message.t) (app : option Application.t) :
  looked_up ctx w msg app w2 →
  Application.UserID <$> app ≠ Some (auth_UserID ctx) →
  postponeMessage admits ctx postponedAt w = (Aborted 404, w2) ∧
  DeleteMessage ctx w = (Aborted 404, w2) ∧
  quiet w w2.
Proof.
  intros Hl Hown. pose proof (looked_up_quiet _ _ _ _ _ Hl) as Hq.
  destruct Hl as (id & w1 & Hid & Hm & Ha).
  split; [|split; [|done]].
  - unfold postponeMessage. rewrite Hid, Hm, Ha. by rewrite decide_False.
  - unfold DeleteMessage. rewrite Hid, Hm, Ha. by rewrite decide_False.
Qed.

(** X19: postponing a message the requester owns replaces its timer.  When
    the engine and the registry agree and the engine takes the new job, the
    message has afterwards exactly one pending timer, set to the new
    instant and named by its registry entry, whether or not the final write
    to the store succeeds. *)
Theorem postpone_replaces_the_timer (ctx : Context) (at_ : Time) (w w2 : World)
    (msg : Message.t) (app : option Application.t) :
  coherent w →
  looked_up ctx w msg app w2 →
  Application.UserID <$> app = Some (auth_UserID ctx) →
  admits (clock w) at_ = true →
  let w' := (postponeMessage admits ctx (Some at_) w).2 in
  ∃ job,
    gocron.jobsOf (Message.ID msg) (cron w') = [job] ∧
    gocron.StartDateTime job = at_ ∧
    jobs w' !! Message.ID msg = Some (gocron.ID job).
Proof.
  intros Hc Hl Hown Hadm. simpl.
  pose proof (looked_up_quiet _ _ _ _ _ Hl) as Hq.
  destruct (postponeMessage_owned ctx (Some at_) w w2 msg app Hl Hown) as (id & ->).
  simpl.
  set (w3 := DeleteMessageSchedule msg w2).
  assert (coherent w3) as Hc3
    by (apply coherent_DeleteMessageSchedule; by apply (quiet_coherent w)).
  assert (jobs w3 !! Message.ID msg = None) as Hnone
    by (unfold w3; rewrite DeleteMessageSchedule_registry; apply lookup_delete_eq).
  assert (admits (clock w3) at_ = true) as Hadm3.
  { unfold w3. destruct (DeleteMessageSchedule_frame msg w2) as (-> & _).
    destruct Hq as (_ & _ & _ & ->). done. }
  set (w4 := ScheduleMessage admits (Message.ID msg) at_ w3).
  destruct (quiet_UpdateMessagePostponement id (Some at_) w4) as (Hj & Hcr & _).
  destruct (UpdateMessagePostponement id (Some at_) w4) as [err w5]. simpl in *.
  rewrite Hj, Hcr. unfold w4.
  exists (gocron.mkJob (gocron.next_id (cron w3)) at_ (Message.ID msg)).
  rewrite (jobsOf_ScheduleMessage_accepted _ _ _ _ _ Hadm3), decide_True by done.
  rewrite (no_entry_no_job _ _ Hc3 Hnone).
  repeat split.
  rewrite (ScheduleMessage_accepted _ _ _ _ Hadm3). simpl. apply lookup_insert_eq.
Qed.

(** X20: un-postponing or deleting a message the requester owns cancels its
    timer.  When the engine and the registry agree, the message has
    afterwards neither a registry entry nor a pending timer, and the handler
    has delivered nothing. *)
Theorem unpostpone_and_delete_cancel_the_timer (ctx : Context) (w w2 : World)
    (msg : Message.t) (app : option Application.t) :
  coherent w →
  looked_up ctx w msg app w2 →
  Application.UserID <$> app = Some (auth_UserID ctx) →
  (let w' := (DeleteMessagePostponement admits ctx w).2 in
   jobs w' !! Message.ID msg = None ∧
   gocron.jobsOf (Message.ID msg) (cron w') = [] ∧
   delivered w' = delivered w) ∧
  (let w' := (DeleteMessage ctx w).2 in
   jobs w' !! Message.ID msg = None ∧
   gocron.jobsOf (Message.ID msg) (cron w') = [] ∧
   delivered w' = delivered w).
Proof.
  intros Hc Hl Hown. simpl.
  pose proof (looked_up_quiet _ _ _ _ _ Hl) as Hq.
  assert (cleared (Message.ID msg) (DeleteMessageSchedule msg w2)) as Hcl
    by (apply cleared_DeleteMessageSchedule; by apply (quiet_coherent w)).
  assert (delivered (DeleteMessageSchedule msg w2) = delivered w) as Hd.
  { destruct (DeleteMessageSchedule_frame msg w2) as (_ & _ & _ & _ & -> & _).
    by destruct Hq as (_ & _ & -> & _). }
  split.
  - unfold DeleteMessagePostponement.
    destruct (postponeMessage_owned ctx None w w2 msg app Hl Hown) as (id & ->).
    simpl.
    pose proof (quiet_UpdateMessagePostponement id None (DeleteMessageSchedule msg w2)) as Hq'.
    destruct (UpdateMessagePostponement id None (DeleteMessageSchedule msg w2))
      as [err w5]. simpl in *.
    destruct (quiet_cleared _ _ _ Hq' Hcl) as [? ?].
    destruct Hq' as (_ & _ & -> & _). done.
  - destruct Hl as (id & w1 & Hid & Hm & Ha).
    unfold DeleteMessage. rewrite Hid, Hm, Ha, decide_True by done.
    pose proof (quiet_DeleteMessageByID id (DeleteMessageSchedule msg w2)) as Hq'.
    destruct (DeleteMessageByID id (DeleteMessageSchedule msg w2)) as [err w4].
    simpl in *.
    destruct (quiet_cleared _ _ _ Hq' Hcl) as [? ?].
    destruct Hq' as (_ & _ & -> & _). done.
Qed.

End HandlerFacts.

Section MoreHandlerFacts.

Variable admits : Time → Time → bool.
Variable json_Marshal : list (string * JSON) → list Byte.byte.
Variable json_Unmarshal : list Byte.byte → option (list (string * JSON)).

Lemma postponeMessage_pending_elem (ctx : Context) (postponedAt : option Time)
    (w : World) (j : gocron.Job) :
  j ∈ gocron.pending (cron (postponeMessage admits ctx postponedAt w).2) →
  j ∈ gocron.pending (cron w) ∨ postponedAt = Some (gocron.StartDateTime j).
Proof.
  unfold postponeMessage.
  destruct (param_id ctx) as [id|]; [|by left].
  pose proof (GetMessageByID_world id w) as H1.
  destruct (quiet_store_call w) as (_ & Hc1 & _).
  destruct (GetMessageByID id w) as [[[msg|]|e] w1]; simpl in H1; subst w1;
    simpl; rewrite ?Hc1; try (by left).
  pose proof (GetApplicationByID_world (Message.ApplicationID msg) (store_call w).2) as H2.
  destruct (quiet_store_call (store_call w).2) as (_ & Hc2 & _).
  destruct (GetApplicationByID (Message.ApplicationID msg) (store_call w).2)
    as [[app|e] w2]; simpl in H2; subst w2; simpl; rewrite ?Hc2, ?Hc1; try (by left).
  case_decide; simpl; rewrite ?Hc2, ?Hc1; [|by left].
  set (w3 := DeleteMessageSchedule msg (store_call (store_call w).2).2).
  assert (∀ j, j ∈ gocron.pending (cron w3) → j ∈ gocron.pending (cron w)) as H3.
  { intros j' Hj'. apply DeleteMessageSchedule_pending_elem in Hj'.
    by rewrite Hc2, Hc1 in Hj'. }
  set (w4 := match postponedAt with
             | Some at_ => ScheduleMessage admits (Message.ID msg) at_ w3
             | None => w3
             end).
  destruct (quiet_UpdateMessagePostponement id postponedAt w4) as (_ & Hc5 & _).
  destruct (UpdateMessagePostponement id postponedAt w4) as [err w5]. simpl in *.
  rewrite Hc5. unfold w4. destruct postponedAt as [at_|].
  - intros [Hj|[_ <-]]%ScheduleMessage_pending_elem; [left; by apply H3|by right].
  - intros Hj. left. by apply H3.
Qed.

(** X21: PostponeMessage never puts a job in the past: every job that is
    pending after the handler and was not pending before starts at the
    instant of the request, and that instant is not before the current
    time. *)
Theorem PostponeMessage_schedules_no_past_job (ctx : Context) (at_ : option Time)
    (w : World) (job : gocron.Job) :
  job ∈ gocron.pending (cron (PostponeMessage admits ctx at_ w).2) →
  job ∉ gocron.pending (cron w) →
  at_ = Some (gocron.StartDateTime job) ∧ clock w ≤ gocron.StartDateTime job.
Proof.
  unfold PostponeMessage. destruct at_ as [t|]; [|done].
  case_decide as Hpast; [done|].
  intros [Hj|Heq]%postponeMessage_pending_elem Hnew; [done|].
  injection Heq as <-. split; [done|lia].
Qed.

Lemma DB_CreateMessage_stdout (message : Message.t) (w : World) :
  stdout (DB_CreateMessage message w).2 = stdout w.
Proof.
  unfold DB_CreateMessage.
  destruct (store_call_frame w) as (_ & _ & _ & _ & _ & _ & Ho).
  by destruct (store_call w) as [[e|] w1].
Qed.

(** X22: what CreateMessage does when it answers.  The status is 200.
    Without postponedAt the answered message is delivered exactly once, to
    the authenticated user, and the registry and the engine are untouched.
    With postponedAt nothing is delivered; if the engine takes the job, one
    job is added to the pending ones, for the answered message and starting
    at the instant asked for, and the registry names it; if the engine
    refuses, the failure is printed and the registry and the engine are
    untouched, while the answer is the same. *)
Theorem CreateMessage_effects_when_answered (ctx : Context) (w w' : World)
    (message body : MessageExternal.t) (code : N) :
  bound ctx = Some message →
  CreateMessage admits json_Marshal json_Unmarshal ctx w = (WroteJSON code body, w') →
  code = 200%N ∧
  match MessageExternal.PostponedAt message with
  | None =>
      delivered w' = delivered w ++ [(auth_UserID ctx, body)] ∧
      jobs w' = jobs w ∧ cron w' = cron w ∧ stdout w' = stdout w
  | Some postponedAt =>
      delivered w' = delivered w ∧
      if admits (clock w) postponedAt
      then ∃ job,
             gocron.pending (cron w') = gocron.pending (cron w) ++ [job] ∧
             gocron.Task job = MessageExternal.ID body ∧
             gocron.StartDateTime job = postponedAt ∧
             jobs w' = <[MessageExternal.ID body := gocron.ID job]> (jobs w) ∧
             stdout w' = stdout w
      else jobs w' = jobs w ∧ cron w' = cron w ∧
           stdout w' = stdout w
                       ++ [ErrorSchedulingMessage (MessageExternal.ID body) ErrNewJob]
  end.
Proof.
  intros Hb. unfold CreateMessage. rewrite Hb.
  pose proof (GetApplicationByToken_world (auth_TokenID ctx) w) as H1.
  pose proof (quiet_store_call w) as Hq1.
  destruct (store_call_frame w) as (_ & _ & _ & _ & _ & _ & Ho1).
  destruct (GetApplicationByToken (auth_TokenID ctx) w) as [[[app|]|e] w1];
    simpl in H1; subst w1; try done.
  set (m := toInternalMessage json_Marshal _).
  pose proof (quiet_DB_CreateMessage m (store_call w).2) as Hq2.
  pose proof (DB_CreateMessage_stdout m (store_call w).2) as Ho2.
  destruct (DB_CreateMessage m (store_call w).2) as [[mi|e] w2];
    simpl in Hq2, Ho2; [|done].
  pose proof (quiet_trans _ _ _ Hq1 Hq2) as (Hj & Hc & Hd & Hcl).
  simpl. destruct (MessageExternal.PostponedAt message) as [t|];
    intros [= <- <- <-]; (split; [done|]).
  - split.
    + destruct (ScheduleMessage_frame admits (Message.ID mi) t w2) as (_ & _ & _ & _ & ->).
      done.
    + rewrite <- Hcl. destruct (admits (clock w2) t) eqn:Hadm.
      * rewrite (ScheduleMessage_accepted _ _ _ _ Hadm). simpl.
        exists (gocron.mkJob (gocron.next_id (cron w2)) t (Message.ID mi)). simpl.
        rewrite Hc, Hj, Ho2, Ho1. done.
      * unfold ScheduleMessage, gocron.NewJob. rewrite Hadm. simpl.
        rewrite Hc, Hj, Ho2, Ho1. done.
  - simpl. rewrite Hd, Hj, Hc, Ho2, Ho1. done.
Qed.

(** X23: CreateMessage touches the dispatch sink and the scheduler only when
    it answers with the message: whenever it aborts (bad body, store
    failure, unknown token), the registry, the engine and the deliveries
    are as before. *)
Theorem CreateMessage_failure_has_no_effect (ctx : Context) (w w' : World)
    (r : Response) :
  CreateMessage admits json_Marshal json_Unmarshal ctx w = (r, w') →
  (∀ code body, r ≠ WroteJSON code body) →
  quiet w w'.
Proof.
  unfold CreateMessage. destruct (bound ctx) as [message|].
  2: { intros [= <- <-] _. apply quiet_refl. }
  pose proof (GetApplicationByToken_world (auth_TokenID ctx) w) as H1.
  pose proof (quiet_store_call w) as Hq1.
  destruct (GetApplicationByToken (auth_TokenID ctx) w) as [[[app|]|e] w1];
    simpl in H1; subst w1; try (by intros [= <- <-] _).
  set (m := toInternalMessage json_Marshal _).
  pose proof (quiet_DB_CreateMessage m (store_call w).2) as Hq2.
  destruct (DB_CreateMessage m (store_call w).2) as [[mi|e] w2]; simpl in Hq2.
  - intros [= <- <-] Hne. by destruct (Hne 200%N (ToExternalMessage json_Unmarshal mi)).
  - intros [= <- <-] _. by eapply quiet_trans.
Qed.

End MoreHandlerFacts.

Lemma looked_up_scheduled (ctx : Context) :
  param_id ctx = Some 1%N → looked_up ctx scheduled nightly (Some backup_app) scheduled.
Proof. intros H. exists 1%N, scheduled. by repeat split. Qed.

Lemma foreign_message_is_out_of_reach_witness :
  postponeMessage future_only stranger (Some 30) scheduled = (Aborted 404, scheduled) ∧
  DeleteMessage stranger scheduled = (Aborted 404, scheduled) ∧
  quiet scheduled scheduled.
Proof.
  apply (foreign_message_is_out_of_reach future_only stranger (Some 30)
           scheduled scheduled nightly (Some backup_app)).
  - by apply looked_up_scheduled.
  - discriminate.
Defined.

Lemma postpone_replaces_the_timer_witness :
  ∃ job,
    gocron.jobsOf (Message.ID nightly)
      (cron (postponeMessage future_only owner (Some 30) scheduled).2) = [job] ∧
    gocron.StartDateTime job = 30 ∧
    jobs (postponeMessage future_only owner (Some 30) scheduled).2 !! Message.ID nightly
    = Some (gocron.ID job).
Proof.
  apply (postpone_replaces_the_timer future_only owner 30 scheduled scheduled nightly
           (Some backup_app)).
  - apply coherent_scheduled.
  - by apply looked_up_scheduled.
  - reflexivity.
  - reflexivity.
Defined.

Lemma unpostpone_and_delete_cancel_the_timer_witness :
  (jobs (DeleteMessagePostponement future_only owner scheduled).2 !! Message.ID nightly = None ∧
   gocron.jobsOf (Message.ID nightly)
     (cron (DeleteMessagePostponement future_only owner scheduled).2) = [] ∧
   delivered (DeleteMessagePostponement future_only owner scheduled).2 = delivered scheduled) ∧
  (jobs (DeleteMessage owner scheduled).2 !! Message.ID nightly = None ∧
   gocron.jobsOf (Message.ID nightly) (cron (DeleteMessage owner scheduled).2) = [] ∧
   delivered (DeleteMessage owner scheduled).2 = delivered scheduled).
Proof.
  apply (unpostpone_and_delete_cancel_the_timer future_only owner scheduled scheduled
           nightly (Some backup_app)).
  - apply coherent_scheduled.
  - by apply looked_up_scheduled.
  - reflexivity.
Defined.

Lemma PostponeMessage_schedules_no_past_job_witness :
  Some 30 = Some (gocron.StartDateTime (gocron.mkJob 1%N 30 1%N)) ∧
  clock scheduled ≤ gocron.StartDateTime (gocron.mkJob 1%N 30 1%N).
Proof.
  apply (PostponeMessage_schedules_no_past_job future_only owner (Some 30) scheduled
           (gocron.mkJob 1%N 30 1%N)).
  - vm_compute. left.
  - vm_compute. intros H. apply list_elem_of_singleton in H. discriminate.
Defined.

Lemma CreateMessage_effects_when_answered_witness :
  200%N = 200%N ∧
  delivered (CreateMessage future_only no_extras_out no_extras_in (request (Some 20)) morning).2
  = delivered morning ∧
  ∃ job,
    gocron.pending
      (cron (CreateMessage future_only no_extras_out no_extras_in (request (Some 20)) morning).2)
    = gocron.pending (cron morning) ++ [job] ∧
    gocron.Task job = MessageExternal.ID (alert_ext (Some 20)) ∧
    gocron.StartDateTime job = 20 ∧
    jobs (CreateMessage future_only no_extras_out no_extras_in (request (Some 20)) morning).2
    = <[MessageExternal.ID (alert_ext (Some 20)) := gocron.ID job]> (jobs morning) ∧
    stdout (CreateMessage future_only no_extras_out no_extras_in (request (Some 20)) morning).2
    = stdout morning.
Proof.
  apply (CreateMessage_effects_when_answered future_only no_extras_out no_extras_in
           (request (Some 20)) morning _ _ (alert_ext (Some 20)) 200%N eq_refl).
  reflexivity.
Defined.

(** The same request without postponedAt, and with a postponedAt the engine
    refuses: one delivery and no job; no delivery, no job and a printed
    line.  Both are answered 200. *)
Lemma CreateMessage_three_ways :
  (∃ w', CreateMessage future_only no_extras_out no_extras_in (request None) morning
         = (WroteJSON 200 (alert_ext None), w') ∧
         delivered w' = [(3%N, alert_ext None)] ∧
         gocron.pending (cron w') = []) ∧
  (∃ w', CreateMessage future_only no_extras_out no_extras_in (request (Some 5)) morning
         = (WroteJSON 200 (alert_ext (Some 5)), w') ∧
         delivered w' = [] ∧
         gocron.pending (cron w') = [] ∧
         stdout w' = [ErrorSchedulingMessage 2%N ErrNewJob]).
Proof.
  split; eexists; (split; [vm_compute; reflexivity|]); repeat split.
Qed.

Lemma CreateMessage_failure_has_no_effect_witness :
  quiet (set_faults [Some (ErrStore 1)] morning)
    (CreateMessage future_only no_extras_out no_extras_in (request (Some 20))
       (set_faults [Some (ErrStore 1)] morning)).2.
Proof.
  apply (CreateMessage_failure_has_no_effect future_only no_extras_out no_extras_in
           (request (Some 20)) (set_faults [Some (ErrStore 1)] morning) _ (Aborted 500)).
  - reflexivity.
  - discriminate.
Defined.

(** * Paging *)

Section PagingFacts.

Variable json_Unmarshal : list Byte.byte → option (list (string * JSON)).
Variable nextURL : Z → uint → string.

#[local] Abbreviation build := (buildWithPaging json_Unmarshal nextURL).
#[local] Abbreviation externals := (toExternalMessages json_Unmarshal).

Lemma buildWithPaging_over (paging : pagingParams.t) (messages : list Message.t) :
  messages ≠ [] →
  pagingParams.Limit paging < Z.of_nat (length messages) →
  build paging messages
  = match last (take (length messages - 1) messages) with
    | None => None
    | Some m =>
        Some {| PagedMessages.Paging :=
                  {| Paging.Size := Z.of_nat (length (take (length messages - 1) messages));
                     Paging.Limit := pagingParams.Limit paging;
                     Paging.Next := nextURL (pagingParams.Limit paging) (Message.ID m);
                     Paging.Since := Message.ID m |};
                PagedMessages.Messages := externals (take (length messages - 1) messages) |}
    end.
Proof.
  intros Hne Hlt. unfold buildWithPaging. rewrite decide_True by done.
  by destruct messages.
Qed.

(** X24: when the messages fit the limit, buildWithPaging returns all of
    them, in order, with their number as size, no next page and since 0. *)
Theorem buildWithPaging_within_limit (paging : pagingParams.t) (messages : list Message.t) :
  Z.of_nat (length messages) ≤ pagingParams.Limit paging →
  build paging messages
  = Some {| PagedMessages.Paging :=
              {| Paging.Size := Z.of_nat (length messages);
                 Paging.Limit := pagingParams.Limit paging;
                 Paging.Next := "";
                 Paging.Since := 0%N |};
            PagedMessages.Messages := externals messages |}.
Proof. intros H. unfold buildWithPaging. rewrite decide_False; [done|lia]. Qed.

(** X25: when there are more messages than the limit (and at least two),
    buildWithPaging drops the last one and returns the others; since is the
    identifier of the last message returned and the next page is built from
    the limit and that identifier. *)
Theorem buildWithPaging_over_limit (paging : pagingParams.t)
    (front : list Message.t) (m extra : Message.t) :
  pagingParams.Limit paging < Z.of_nat (length (front ++ [m; extra])) →
  build paging (front ++ [m; extra])
  = Some {| PagedMessages.Paging :=
              {| Paging.Size := Z.of_nat (length front) + 1;
                 Paging.Limit := pagingParams.Limit paging;
                 Paging.Next := nextURL (pagingParams.Limit paging) (Message.ID m);
                 Paging.Since := Message.ID m |};
            PagedMessages.Messages := externals (front ++ [m]) |}.
Proof.
  intros Hlt. rewrite buildWithPaging_over; [|by destruct front|done].
  assert (take (length (front ++ [m; extra]) - 1) (front ++ [m; extra]) = front ++ [m])
    as ->.
  { replace (front ++ [m; extra]) with ((front ++ [m]) ++ [extra])
      by (by rewrite <- app_assoc).
    apply take_app_length'. rewrite !length_app. simpl. lia. }
  rewrite last_snoc, length_app. simpl.
  repeat f_equal. lia.
Qed.

(** X26: buildWithPaging panics exactly when at most one message is given
    and the limit is below their number: the slice bound or the index of the
    last message is then -1.  With a limit of at least 1, as withPaging
    binds it, it always returns. *)
Theorem buildWithPaging_panics_iff (paging : pagingParams.t) (messages : list Message.t) :
  build paging messages = None ↔
  pagingParams.Limit paging < Z.of_nat (length messages) ∧ (length messages ≤ 1)%nat.
Proof.
  split.
  - unfold buildWithPaging. case_decide as Hlt; [|done].
    destruct messages as [|a l]; [intros _; simpl; split; [done|lia]|].
    destruct (last (take (length (a :: l) - 1) (a :: l))) eqn:E; [done|].
    intros _. split; [done|].
    apply last_None in E.
    assert (length (take (length (a :: l) - 1) (a :: l)) = 0%nat) as Hlen by (by rewrite E).
    rewrite length_take in Hlen. simpl in *. lia.
  - intros [Hlt Hle]. destruct messages as [|a [|b l]]; simpl in Hle; [| |lia].
    + unfold buildWithPaging. by rewrite decide_True.
    + by rewrite buildWithPaging_over.
Qed.

(** X27: when at most one message more than the limit is given, as the
    handlers fetch them, the page never holds more messages than the
    limit, and its size is the number of messages it holds. *)
Theorem buildWithPaging_respects_limit (paging : pagingParams.t)
    (messages : list Message.t) (page : PagedMessages.t) :
  Z.of_nat (length messages) ≤ pagingParams.Limit paging + 1 →
  build paging messages = Some page →
  Paging.Size (PagedMessages.Paging page) ≤ pagingParams.Limit paging ∧
  Z.of_nat (length (PagedMessages.Messages page)) = Paging.Size (PagedMessages.Paging page).
Proof.
  intros Hfetch. unfold buildWithPaging. case_decide as Hlt.
  - destruct messages as [|a l]; [done|].
    destruct (last (take (length (a :: l) - 1) (a :: l))); [|done].
    intros [= <-]. simpl. unfold toExternalMessages.
    rewrite length_fmap, length_take. simpl in *. split; lia.
  - intros [= <-]. simpl. unfold toExternalMessages. rewrite length_fmap. split; lia.
Qed.

End PagingFacts.

Lemma buildWithPaging_within_limit_witness :
  buildWithPaging no_extras_in first_url (pagingParams.mk 2 0%N None) [nightly; report]
  = Some {| PagedMessages.Paging :=
              {| Paging.Size := Z.of_nat (length [nightly; report]);
                 Paging.Limit := 2; Paging.Next := ""; Paging.Since := 0%N |};
            PagedMessages.Messages :=
              toExternalMessages no_extras_in [nightly; report] |}.
Proof.
  apply (buildWithPaging_within_limit no_extras_in first_url
           (pagingParams.mk 2 0%N None) [nightly; report]).
  vm_compute. discriminate.
Defined.

Lemma buildWithPaging_over_limit_witness :
  buildWithPaging no_extras_in first_url (pagingParams.mk 2 0%N None)
    ([nightly] ++ [report; overdue])
  = Some {| PagedMessages.Paging :=
              {| Paging.Size := Z.of_nat (length [nightly]) + 1;
                 Paging.Limit := 2;
                 Paging.Next := first_url 2 (Message.ID report);
                 Paging.Since := Message.ID report |};
            PagedMessages.Messages :=
              toExternalMessages no_extras_in ([nightly] ++ [report]) |}.
Proof.
  apply (buildWithPaging_over_limit no_extras_in first_url
           (pagingParams.mk 2 0%N None) [nightly] report overdue).
  reflexivity.
Defined.

Lemma buildWithPaging_respects_limit_witness :
  Paging.Size (PagedMessages.Paging
    {| PagedMessages.Paging := Paging.mk 2 2 (first_url 2 3%N) 3%N;
       PagedMessages.Messages := toExternalMessages no_extras_in [nightly; report] |}) ≤ 2 ∧
  Z.of_nat (length (toExternalMessages no_extras_in [nightly; report])) = 2.
Proof.
  apply (buildWithPaging_respects_limit no_extras_in first_url
           (pagingParams.mk 2 0%N None) [nightly; report; overdue]).
  - vm_compute. discriminate.
  - reflexivity.
Defined.

(** * The conversions, the other way round *)

Section MoreConversionFacts.

Variable json_Marshal : list (string * JSON) → list Byte.byte.
Variable json_Unmarshal : list Byte.byte → option (list (string * JSON)).

(** X28: converting an internal message to the external form and back gives
    the same message, provided its extras are empty, or decode to a map
    that is not nil and encodes to the same bytes again.  (Extras that
    decode to nil, as the JSON value null does, come back empty.) *)
Theorem internal_external_roundtrip (m : Message.t) :
  (Message.Extras m ≠ [] →
   ∃ extras, json_Unmarshal (Message.Extras m) = Some extras ∧
             json_Marshal extras = Message.Extras m) →
  toInternalMessage json_Marshal (ToExternalMessage json_Unmarshal m) = m.
Proof.
  destruct m as [i a msg t pr ex d po]. simpl. intros Hcodec.
  unfold toInternalMessage, ToExternalMessage. simpl.
  f_equal. case_decide as Hlen.
  - destruct Hcodec as (extras & -> & Hm); [|done]. intros ->. by apply Hlen.
  - destruct ex; [done|]. simpl in Hlen. first [discriminate|exfalso; by apply Hlen].
Qed.

(** Extras that decode to nil are lost on the way: the message comes back
    with empty extras. *)
Lemma nil_extras_come_back_empty (m : Message.t) :
  json_Unmarshal (Message.Extras m) = None →
  Message.Extras (toInternalMessage json_Marshal (ToExternalMessage json_Unmarshal m)) = [].
Proof.
  intros Hnil. unfold toInternalMessage, ToExternalMessage. simpl.
  case_decide; [by rewrite Hnil|done].
Qed.

(** X29: an external message without priority, converted to the internal
    form and back, comes back with priority 0; its identifier, application,
    text, title, date and postponement are unchanged. *)
Theorem roundtrip_without_priority (m : MessageExternal.t) :
  MessageExternal.Priority m = None →
  let m' := ToExternalMessage json_Unmarshal (toInternalMessage json_Marshal m) in
  MessageExternal.Priority m' = Some 0 ∧
  MessageExternal.ID m' = MessageExternal.ID m ∧
  MessageExternal.ApplicationID m' = MessageExternal.ApplicationID m ∧
  MessageExternal.Message m' = MessageExternal.Message m ∧
  MessageExternal.Title m' = MessageExternal.Title m ∧
  MessageExternal.Date m' = MessageExternal.Date m ∧
  MessageExternal.PostponedAt m' = MessageExternal.PostponedAt m.
Proof.
  intros Hp. unfold ToExternalMessage, toInternalMessage. simpl.
  rewrite Hp. repeat split; reflexivity.
Qed.

End MoreConversionFacts.

Lemma internal_external_roundtrip_witness :
  toInternalMessage braces_out (ToExternalMessage no_extras_in tagged) = tagged.
Proof.
  apply (internal_external_roundtrip braces_out no_extras_in tagged).
  intros _. exists []. split; reflexivity.
Defined.

Lemma roundtrip_without_priority_witness :
  let m := MessageExternal.mk 1%N 7%N "backup done" "nightly" None None 8 (Some 20) in
  let m' := ToExternalMessage no_extras_in (toInternalMessage no_extras_out m) in
  MessageExternal.Priority m' = Some 0 ∧
  MessageExternal.ID m' = MessageExternal.ID m ∧
  MessageExternal.ApplicationID m' = MessageExternal.ApplicationID m ∧
  MessageExternal.Message m' = MessageExternal.Message m ∧
  MessageExternal.Title m' = MessageExternal.Title m ∧
  MessageExternal.Date m' = MessageExternal.Date m ∧
  MessageExternal.PostponedAt m' = MessageExternal.PostponedAt m.
Proof.
  apply (roundtrip_without_priority no_extras_out no_extras_in
           (MessageExternal.mk 1%N 7%N "backup done" "nightly" None None 8 (Some 20))).
  reflexivity.
Defined.

(** * Recovery with the engine's rule on start instants *)

Section RecoveryByEngine.

Variable admits : Time → Time → bool.

#[local] Abbreviation recover'' :=
  (λ (w' : World) (message : Message.t),
     match Message.PostponedAt message with
     | Some postponedAt => ScheduleMessage admits (Message.ID message) postponedAt w'
     | None => w'
     end).



Lemma recover_clock (found : list Message.t) (w : World) :
  clock (foldl recover'' w found) = clock w.
Proof.
  revert w. induction found as [|m0 found IH]; intros w; simpl; [done|].
  rewrite IH. destruct (Message.PostponedAt m0); [|done].
  by destruct (ScheduleMessage_frame admits (Message.ID m0) t w) as (-> & _).
Qed.


End RecoveryByEngine.



